(** * Bulk discount generation and CSV export: a shallow embedding

    The development follows two source files of the application:
    - [discount.server.ts]   : [generateDiscountCodes], the per-row pipeline;
    - [csv-export.server.ts] : [generateCSVWithCodes], [generateSummaryCSV],
                               [generateSuccessfulCodesCSV];
    and models, in [Js], the JavaScript built-ins those functions call
    (string methods, [parseFloat], number printing, exceptions).

    JavaScript strings are sequences of UTF-16 code units and are modelled as
    [list N].  What the generator takes from its surroundings (the clock, the
    user snippet, the remote call) is read from a [Runtime] record, indexed
    by the loop counter of the row that asks for it; what the loop does to
    the outside world (remote calls, delays) is logged as a list of [Event]s.
    [console.log] is not modelled. *)

From Stdlib Require Import ZArith NArith List String Ascii Bool Lia.
From Stdlib Require DecimalN.
From stdpp Require Import gmap list.
Import ListNotations.

Local Open Scope N_scope.

(* ===================================================================== *)
(** ** JavaScript built-ins *)
(* ===================================================================== *)

Module Js.

(** A string value: its UTF-16 code units. *)
Abbreviation jsstring := (list N).

(** A literal written in ASCII. *)
Definition lit (s : string) : jsstring :=
  List.map N_of_ascii (list_ascii_of_string s).
Arguments lit : simpl never.

Fixpoint str_eqb (a b : jsstring) : bool :=
  match a, b with
  | [], [] => true
  | x :: a', y :: b' => (x =? y) && str_eqb a' b'
  | _, _ => false
  end.

(** [WhiteSpace] and [LineTerminator] code units, as used by
    [String.prototype.trim] and by [parseFloat]. *)
Definition isWhiteSpace (c : N) : bool :=
  (c =? 9) || (c =? 10) || (c =? 11) || (c =? 12) || (c =? 13) || (c =? 32)
  || (c =? 160) || (c =? 5760) || ((8192 <=? c) && (c <=? 8202))
  || (c =? 8232) || (c =? 8233) || (c =? 8239) || (c =? 8287)
  || (c =? 12288) || (c =? 65279).

Fixpoint trimStart (s : jsstring) : jsstring :=
  match s with
  | c :: s' => if isWhiteSpace c then trimStart s' else s
  | [] => []
  end.

(** [s.trim()] *)
Definition trim (s : jsstring) : jsstring :=
  rev (trimStart (rev (trimStart s))).

(** [Some rest] when [p] is a prefix of [s]. *)
Fixpoint stripPrefix (p s : jsstring) : option jsstring :=
  match p, s with
  | [], _ => Some s
  | x :: p', y :: s' => if x =? y then stripPrefix p' s' else None
  | _ :: _, [] => None
  end.

(** [s.replace(pat, rep)] with a string pattern: only the first occurrence
    is replaced.  ([rep] is used without [$]-patterns.) *)
Fixpoint replace (pat rep s : jsstring) : jsstring :=
  match stripPrefix pat s with
  | Some rest => rep ++ rest
  | None =>
      match s with
      | [] => []
      | c :: s' => c :: replace pat rep s'
      end
  end.

(** [s.substring(0, n)] *)
Definition substring0 (n : nat) (s : jsstring) : jsstring := firstn n s.

(** [xs.join(sep)] on an array of strings. *)
Fixpoint join (sep : jsstring) (xs : list jsstring) : jsstring :=
  match xs with
  | [] => []
  | [x] => x
  | x :: rest => x ++ sep ++ join sep rest
  end.

(** The global replacement of every double-quote code unit (34) by two of
    them, the CSV escaping of the exporter. *)
Definition escapeQuotes (s : jsstring) : jsstring :=
  flat_map (fun c => if c =? 34 then [34; 34] else [c]) s.

(** A template that wraps [s] in double quotes. *)
Definition quoted (s : jsstring) : jsstring := [34] ++ s ++ [34].

Definition isDigit (c : N) : bool := (48 <=? c) && (c <=? 57).
Definition isUpperAZ (c : N) : bool := (65 <=? c) && (c <=? 90).

(** [s.replace(/[^A-Z0-9]/g, "_")]: the pattern has no [u] flag, so it is
    matched against every code unit separately. *)
Definition replaceNonAZ09 (s : jsstring) : jsstring :=
  List.map (fun c => if isUpperAZ c || isDigit c then c else 95) s.

(** Decimal digits of a non-negative integer. *)
Fixpoint uintUnits (d : Decimal.uint) : jsstring :=
  match d with
  | Decimal.Nil => []
  | Decimal.D0 d => 48 :: uintUnits d
  | Decimal.D1 d => 49 :: uintUnits d
  | Decimal.D2 d => 50 :: uintUnits d
  | Decimal.D3 d => 51 :: uintUnits d
  | Decimal.D4 d => 52 :: uintUnits d
  | Decimal.D5 d => 53 :: uintUnits d
  | Decimal.D6 d => 54 :: uintUnits d
  | Decimal.D7 d => 55 :: uintUnits d
  | Decimal.D8 d => 56 :: uintUnits d
  | Decimal.D9 d => 57 :: uintUnits d
  end.

Definition natString (n : N) : jsstring := uintUnits (N.to_uint n).

(** [String(z)] for an integer number below 10^21 in magnitude (row numbers
    and millisecond time values are). *)
Definition intString (z : Z) : jsstring :=
  match z with
  | Z0 => lit "0"
  | Zpos p => natString (Npos p)
  | Zneg p => lit "-" ++ natString (Npos p)
  end.

(** *** Numbers

    A finite number is kept as the decimal numeral that denotes it:
    [Finite neg ds p] is (-1)^neg * 0.d1 d2 ... dk * 10^p, with [ds] the
    digit values, free of leading and trailing zeros ([ds = []] is zero).
    A numeral at or above 2^1024 - 2^970 is [Infinity] and one at or below
    2^-1075 is zero, as binary64 rounds them.  Between these bounds the
    digits are kept as written, without the rounding of binary64 to 53
    bits: the model is exact for numerals of at most 15 significant digits
    between 1e-307 and 1e308, which is where prices live. *)
Inductive number : Type :=
| NaN
| Infinity (neg : bool)
| Finite (neg : bool) (ds : list N) (point : Z).

Definition isNaN (x : number) : bool :=
  match x with NaN => true | _ => false end.

(** ToBoolean on a number: [NaN], [0] and [-0] are falsy. *)
Definition numberTruthy (x : number) : bool :=
  match x with
  | NaN => false
  | Infinity _ => true
  | Finite _ [] _ => false
  | Finite _ (_ :: _) _ => true
  end.

Fixpoint spanDigits (s : jsstring) : list N * jsstring :=
  match s with
  | c :: s' =>
      if isDigit c
      then let '(ds, rest) := spanDigits s' in ((c - 48) :: ds, rest)
      else ([], s)
  | [] => ([], [])
  end.

(** Drops leading zeros; every dropped digit moves the point left. *)
Fixpoint dropLeadingZeros (ds : list N) (point : Z) : list N * Z :=
  match ds with
  | 0 :: ds' => dropLeadingZeros ds' (point - 1)
  | _ => (ds, point)
  end.

Fixpoint dropZeros (ds : list N) : list N :=
  match ds with
  | 0 :: ds' => dropZeros ds'
  | _ => ds
  end.

Definition dropTrailingZeros (ds : list N) : list N :=
  rev (dropZeros (rev ds)).

Definition digitsValue (ds : list N) : Z :=
  fold_left (fun acc d => (10 * acc + Z.of_N d)%Z) ds 0%Z.

(** Whether 0.d1 ... dk * 10^p, with [d1] not zero, rounds to [Infinity]:
    it is at least 2^1024 - 2^970, half way between the largest binary64
    number and 2^1024.  Only numerals with p = 309 need the comparison. *)
Definition overflows (ds : list N) (p : Z) : bool :=
  let k := Z.of_nat (length ds) in
  let bound := (2 ^ 1024 - 2 ^ 970)%Z in
  if (p <=? 308)%Z then false
  else if (310 <=? p)%Z then true
  else if (k <=? 309)%Z then (bound <=? digitsValue ds * 10 ^ (309 - k))%Z
  else (bound * 10 ^ (k - 309) <=? digitsValue ds)%Z.

(** Whether it rounds to zero: it is at most 2^-1075, half the smallest
    binary64 number.  Only numerals with p = -323 need the comparison. *)
Definition underflows (ds : list N) (p : Z) : bool :=
  let k := Z.of_nat (length ds) in
  if (p <=? -324)%Z then true
  else if (-322 <=? p)%Z then false
  else (digitsValue ds * 2 ^ 1075 <=? 10 ^ (323 + k))%Z.

Definition mkFinite (neg : bool) (ds : list N) (point : Z) : number :=
  let '(ds1, p1) := dropLeadingZeros ds point in
  match dropTrailingZeros ds1 with
  | [] => Finite neg [] 0
  | ds2 =>
      if overflows ds2 p1 then Infinity neg
      else if underflows ds2 p1 then Finite neg [] 0
      else Finite neg ds2 p1
  end.

(** [ExponentPart]: [e] or [E], an optional sign, at least one digit.
    Returns the exponent, 0 when there is no well-formed exponent part. *)
Definition exponentPart (s : jsstring) : Z :=
  match s with
  | c :: s1 =>
      if (c =? 101) || (c =? 69) then
        let '(eneg, s2) :=
          match s1 with
          | 43 :: t => (false, t)
          | 45 :: t => (true, t)
          | _ => (false, s1)
          end in
        match spanDigits s2 with
        | ([], _) => 0%Z
        | (eds, _) => if eneg then (- digitsValue eds)%Z else digitsValue eds
        end
      else 0%Z
  | [] => 0%Z
  end.

(** [parseFloat(s)]: skip leading white space, then read the longest prefix
    that is a [StrDecimalLiteral]; [NaN] when there is none. *)
Definition parseFloat (s : jsstring) : number :=
  let s0 := trimStart s in
  let '(neg, s1) :=
    match s0 with
    | 43 :: t => (false, t)
    | 45 :: t => (true, t)
    | _ => (false, s0)
    end in
  match stripPrefix (lit "Infinity") s1 with
  | Some _ => Infinity neg
  | None =>
      let '(ints, s2) := spanDigits s1 in
      let '(fracs, s3) :=
        match s2 with
        | 46 :: t => spanDigits t
        | _ => ([], s2)
        end in
      match ints ++ fracs with
      | [] => NaN
      | ds => mkFinite neg ds (Z.of_nat (length ints) + exponentPart s3)
      end
  end.

Definition digitUnits (ds : list N) : jsstring := List.map (fun d => d + 48) ds.

(** [Number::toString] in radix 10. *)
Definition numberString (x : number) : jsstring :=
  match x with
  | NaN => lit "NaN"
  | Infinity neg => (if neg then lit "-" else []) ++ lit "Infinity"
  | Finite _ [] _ => lit "0"
  | Finite neg ds n =>
      let k := Z.of_nat (length ds) in
      let body :=
        if ((k <=? n) && (n <=? 21))%Z then
          digitUnits ds ++ repeat 48 (Z.to_nat (n - k))
        else if ((0 <? n) && (n <=? 21))%Z then
          digitUnits (firstn (Z.to_nat n) ds) ++ lit "."
            ++ digitUnits (skipn (Z.to_nat n) ds)
        else if ((-6 <? n) && (n <=? 0))%Z then
          lit "0." ++ repeat 48 (Z.to_nat (- n)) ++ digitUnits ds
        else
          let e := (n - 1)%Z in
          let mantissa :=
            match ds with
            | [d] => digitUnits [d]
            | d :: rest => digitUnits [d] ++ lit "." ++ digitUnits rest
            | [] => []
            end in
          mantissa ++ lit "e" ++ (if (e <? 0)%Z then lit "-" else lit "+")
            ++ intString (Z.abs e)
      in
      (if neg then lit "-" else []) ++ body
  end.

(** *** Exceptions *)

(** A thrown value, as far as a handler that prints [error.message] in a
    template can tell:
    - [ThrownNullish]: [null] or [undefined]; reading a property off it is
      itself a [TypeError];
    - [ThrownValue message]: a value whose [message] can be read and
      converted to a string, as for every [Error] object; [Some s] is the
      text the template prints for it, [None] a [message] that is
      [undefined];
    - [ThrownUnprintable]: any other value, whose [message] cannot be read
      or cannot be converted to a string (a symbol, a getter or a
      [toString] that throws); printing it throws. *)
Inductive Thrown : Type :=
| ThrownNullish
| ThrownValue (message : option jsstring)
| ThrownUnprintable.

(** [`${x}`] for a string-or-undefined [x]. *)
Definition template (x : option jsstring) : jsstring :=
  match x with
  | Some s => s
  | None => lit "undefined"
  end.

(** [`${error.message}`]; [None] when evaluating it throws. *)
Definition errorMessage (e : Thrown) : option jsstring :=
  match e with
  | ThrownNullish => None
  | ThrownValue m => Some (template m)
  | ThrownUnprintable => None
  end.

(** Outcome of evaluating an expression or awaiting a promise. *)
Inductive Completion (A : Type) : Type :=
| Normal (a : A)
| Throw (e : Thrown).
Arguments Normal {A} a.
Arguments Throw {A} e.

End Js.

(* ===================================================================== *)
(** ** Data model shared by the generator and the exporter *)
(* ===================================================================== *)

Module Model.
Import Js.

(** A parsed CSV record: a plain object from column name to cell text.
    The list holds its own properties in [Object.keys] order; a column that
    the record lacks has no entry.  Cells are strings, as the CSV parser
    produces them. *)
Definition Row : Type := list (jsstring * jsstring).

(** The own cell of [row] under [key], if it has one.  Where there is
    one, [row[key]] is that cell; where there is none, [row[key]] is
    [undefined], or a member that the record inherits, see
    [inheritedMember]. *)
Fixpoint getCell (row : Row) (key : jsstring) : option jsstring :=
  match row with
  | [] => None
  | (k, v) :: rest => if str_eqb k key then Some v else getCell rest key
  end.

(** [Object.keys(row)] *)
Definition keys (row : Row) : list jsstring := List.map fst row.

(** The names of the members that every plain object inherits from
    [Object.prototype].  Where a record has no own cell under [key],
    [row[key]] is [undefined], unless [key] is one of these names: then it
    is the inherited member, a function (for [__proto__] the prototype
    object), which is truthy and is not a string. *)
Definition inheritedMember (key : jsstring) : bool :=
  existsb (str_eqb key)
    [ lit "constructor"; lit "toString"; lit "toLocaleString"; lit "valueOf";
      lit "hasOwnProperty"; lit "isPrototypeOf"; lit "propertyIsEnumerable";
      lit "__proto__"; lit "__defineGetter__"; lit "__defineSetter__";
      lit "__lookupGetter__"; lit "__lookupSetter__" ].

Inductive Status : Type := success | error.

Definition statusString (s : Status) : jsstring :=
  match s with
  | success => lit "success"
  | error => lit "error"
  end.

(** The [DiscountResult] interface of [csv-export.server.ts]; the optional
    members are [None] when absent. *)
Record DiscountResult : Type := mkResult {
  row : Z;
  customer : jsstring;
  status : Status;
  discountCode : option jsstring;
  amount : option number;
  message : jsstring
}.

Record Summary : Type := mkSummary {
  total : nat;
  successful : nat;
  errors : nat
}.

Record Report : Type := mkReport {
  results : list DiscountResult;
  summary : Summary
}.

End Model.

(* ===================================================================== *)
(** ** [generateDiscountCodes] *)
(* ===================================================================== *)

Module Discount.
Import Js Model.

(** The [basicCodeDiscount] variable of the mutation. *)
Record DiscountCodeBasicInput : Type := mkInput {
  title : jsstring;
  code : jsstring;
  startsAt : jsstring;
  customerSelectionAll : bool;
  discountAmount : jsstring;
  itemsAll : bool;
  appliesOncePerCustomer : bool;
  usageLimit : Z
}.

(** One entry of [userErrors]: [field] is a path (an array of strings) or
    null. *)
Record UserError : Type := mkUserError {
  field : option (list jsstring);
  userMessage : option jsstring
}.

(** The [discountCodeBasicCreate] payload, as far as the code reads it. *)
Record Payload : Type := mkPayload {
  userErrors : option (list UserError)
}.

(** A decoded response body.  [BodyNullish isNull] is [null] or
    [undefined].  Otherwise [bodyErrors] is the top-level [errors] array
    when there is one (each entry given by its [message]), and [bodyData]
    is [data] when it is truthy, given by its [discountCodeBasicCreate]
    member when that is truthy. *)
Inductive Body : Type :=
| BodyNullish (isNull : bool)
| BodyValue (bodyErrors : option (list (option jsstring)))
            (bodyData : option (option Payload)).

(** The [TypeError] of reading [errors] off [null] or [undefined], with the
    message V8 gives it. *)
Definition readOfNullish (isNull : bool) : Thrown :=
  ThrownValue (Some (lit "Cannot read properties of "
                       ++ (if isNull then lit "null" else lit "undefined")
                       ++ lit " (reading 'errors')")).

(** What [graphql] resolves to, described by what the code can observe:
    - [json]: [Some c] when the value is truthy and has a [json] function,
      [c] being the completion of [await response.json()];
    - [own]: the value read as a plain object (its [data] and [errors]);
    - [text]: the completion of [await response.text()], a [TypeError]
      when the value has no such method. *)
Record Response : Type := mkResponse {
  json : option (Completion Body);
  own : Body;
  text : Completion jsstring
}.

(** A value returned by the transform snippet: a string, or a value on
    which [toUpperCase] cannot be called ([undefined], [null], a number, a
    boolean, a symbol, a plain object). *)
Inductive SnippetValue : Type :=
| VString (s : jsstring)
| VNotString.

(** Everything the function takes from its surroundings.  The first
    argument of [Date_now], [toISOString], [transformFunc] and [graphql] is
    the loop counter [i] of the row being processed.
    - [toUpperCase]: [String.prototype.toUpperCase];
    - [Date_now]: [Date.now()], an integral number of milliseconds;
    - [toISOString]: [new Date().toISOString()];
    - [transformFunc i src name]: [new Function("name", src)(name)],
      a [Throw] when the construction or the call throws;
    - [graphql]: the first parameter of [generateDiscountCodes];
    - [JSON_parse]: [JSON.parse], [None] when it throws. *)
Record Runtime : Type := mkRuntime {
  toUpperCase : jsstring -> jsstring;
  Date_now : nat -> Z;
  toISOString : nat -> jsstring;
  transformFunc : nat -> jsstring -> jsstring -> Completion SnippetValue;
  graphql : nat -> DiscountCodeBasicInput -> Completion Response;
  JSON_parse : jsstring -> option Body
}.

(** Effects visible outside the function, in order. *)
Inductive Event : Type :=
| EvGraphql (i : nat) (variables : DiscountCodeBasicInput)
| EvSleep (ms : Z).

(** The mutable locals of the function: [results], [successCount],
    [errorCount], and the log of events so far. *)
Record State : Type := mkState {
  stResults : list DiscountResult;
  successCount : nat;
  errorCount : nat;
  events : list Event
}.

Definition initial : State := mkState [] 0 0 [].

(** [results.push(r)] *)
Definition push (r : DiscountResult) (st : State) : State :=
  mkState (stResults st ++ [r]) (successCount st) (errorCount st) (events st).

(** [errorCount++] *)
Definition incErrors (st : State) : State :=
  mkState (stResults st) (successCount st) (S (errorCount st)) (events st).

(** [successCount++] *)
Definition incSuccess (st : State) : State :=
  mkState (stResults st) (S (successCount st)) (errorCount st) (events st).

Definition emit (ev : Event) (st : State) : State :=
  mkState (stResults st) (successCount st) (errorCount st) (events st ++ [ev]).

(** An error result: [discountCode] and [amount] are left out. *)
Definition errorResult (i : nat) (who msg : jsstring) : DiscountResult :=
  mkResult (Z.of_nat i + 1) who error None None msg.

(** The string stripped from the price cell, exactly as the source file
    spells it: U+00C2 followed by U+00A3. *)
Definition currencyLiteral : jsstring := [194; 163].

(** The campaign prefix of every code. *)
Definition campaignTag : jsstring := lit "KICKSTARTER_".

(** Lines 71-76: the code synthesised from the name and the time value. *)
Definition synthesize (rt : Runtime) (customerName : jsstring) (timestamp : Z)
  : jsstring :=
  let cleanName := replaceNonAZ09 (toUpperCase rt customerName) in
  substring0 50 (campaignTag ++ cleanName ++ lit "_" ++ intString timestamp).

(** [transformFunction && transformFunction.trim()] *)
Definition transformConfigured (transformFunction : jsstring) : bool :=
  match transformFunction with
  | [] => false
  | _ => match trim transformFunction with [] => false | _ => true end
  end.

(** Lines 108-133: the three shapes of a response. *)
Inductive Decoded : Type :=
| Data (responseData : Body)
| InvalidFormat (responseText : jsstring)
| DecodeThrow (e : Thrown).

Definition hasData (b : Body) : bool :=
  match b with
  | BodyValue _ (Some _) => true
  | _ => false
  end.

Definition decode (rt : Runtime) (response : Response) : Decoded :=
  match json response with
  | Some (Normal b) => Data b
  | Some (Throw e) => DecodeThrow e
  | None =>
      if hasData (own response) then Data (own response)
      else
        match text response with
        | Throw e => DecodeThrow e
        | Normal responseText =>
            match JSON_parse rt responseText with
            | Some b => Data b
            | None => InvalidFormat responseText
            end
        end
  end.

(** [xs.join(", ")] where an [undefined] element prints as nothing. *)
Definition joinMessages (xs : list (option jsstring)) : jsstring :=
  join (lit ", ") (List.map (fun m => match m with Some s => s | None => [] end) xs).

(** [`${e.field || "unknown"}: ${e.message}`] *)
Definition userErrorLine (e : UserError) : jsstring :=
  (match field e with
   | Some path => join (lit ",") path
   | None => lit "unknown"
   end) ++ lit ": " ++ template (userMessage e).

(** How a [try] block ends: normally, or by a throw; either way with the
    state it has reached. *)
Inductive TryResult : Type :=
| Done (st : State)
| Raised (e : Thrown) (st : State).

(** Lines 78-189: the body of the [try] block. *)
Definition tryBlock (rt : Runtime) (i : nat) (customerName discountCode : jsstring)
    (priceValue : number) (st : State) : TryResult :=
  let variables :=
    mkInput (lit "Kickstarter Backer - " ++ customerName) discountCode
            (toISOString rt i) true (numberString priceValue) true true 1 in
  let st := emit (EvGraphql i variables) st in
  match graphql rt i variables with
  | Throw e => Raised e st
  | Normal response =>
      match decode rt response with
      | DecodeThrow e => Raised e st
      | InvalidFormat responseText =>
          Done (incErrors (push
            (errorResult i customerName
               (lit "Invalid response format: " ++ substring0 100 responseText)) st))
      | Data (BodyNullish isNull) => Raised (readOfNullish isNull) st
      | Data (BodyValue (Some errs) _) =>
          Done (incErrors (push
            (errorResult i customerName
               (lit "GraphQL errors: " ++ joinMessages errs)) st))
      | Data (BodyValue None data) =>
          match data with
          | None | Some None =>
              Done (incErrors (push
                (errorResult i customerName
                   (lit "No discountCodeBasicCreate data in response")) st))
          | Some (Some discountData) =>
              let st :=
                match userErrors discountData with
                | Some ((_ :: _) as errs) =>
                    incErrors (push
                      (errorResult i customerName
                         (join (lit ", ") (List.map userErrorLine errs))) st)
                | _ =>
                    incSuccess (push
                      (mkResult (Z.of_nat i + 1) customerName success
                         (Some discountCode) (Some priceValue)
                         (lit "Discount code created successfully")) st)
                end in
              Done (emit (EvSleep 600) st)
          end
      end
  end.

(** Why the promise returned by [generateDiscountCodes] rejects: each is an
    exception raised outside every [try] block.
    - [PriceCellUndefined], line 38: [replace] is read off [undefined];
    - [PriceCellNotAString], line 38: the price read is an inherited member,
      which has no [replace];
    - [NameNotAString], line 72: [toUpperCase] is called on a value that is
      not a string;
    - [ErrorNullish], lines 63 and 195: [message] is read off [null] or
      [undefined] inside the handler;
    - [MessageUnprintable], lines 63 and 195: the template cannot print the
      [message] of the value caught;
    - [AfterSnippetOnMember]: one of the above, raised in the row where the
      snippet was applied to an inherited member or in a later row; see
      [MemberToSnippet]. *)
Inductive Abort : Type :=
| PriceCellUndefined
| PriceCellNotAString
| NameNotAString
| ErrorNullish
| MessageUnprintable
| AfterSnippetOnMember.

(** What the handler's own failure to print the message rejects with. *)
Definition handlerAbort (e : Thrown) : Abort :=
  match e with
  | ThrownUnprintable => MessageUnprintable
  | _ => ErrorNullish
  end.

(** How an iteration ends when it does not leave a state behind.
    - [Uncaught a]: an exception escapes the function.
    - [MemberAsCustomer]: the name read is an inherited member and the price
      does not parse; line 45 stores the member as the customer of the error
      result and the loop goes on.  A [DiscountResult] here holds a string
      as customer, so this result has no counterpart.
    - [MemberToSnippet]: the name read is an inherited member, the price
      parses and a snippet is configured; line 57 applies the snippet to the
      member.  The runtime here tells what the snippet does on a string
      only, so what this row ends in is not known: an exception, or a
      result and the next row. *)
Inductive Stop : Type :=
| Uncaught (a : Abort)
| MemberAsCustomer
| MemberToSnippet.

(** Lines 36-198: one iteration of the loop. *)
Definition iteration (rt : Runtime) (nameColumn priceColumn transformFunction : jsstring)
    (i : nat) (r : Row) (st : State) : Stop + State :=
  let customerName := getCell r nameColumn in
  match getCell r priceColumn with
  | None =>
      inl (Uncaught (if inheritedMember priceColumn then PriceCellNotAString
                     else PriceCellUndefined))
  | Some cell =>
      let priceValue := parseFloat (replace currencyLiteral [] cell) in
      match customerName with
      | None =>
          if inheritedMember nameColumn then
            if isNaN priceValue then inl MemberAsCustomer
            else if transformConfigured transformFunction then inl MemberToSnippet
            else inl (Uncaught NameNotAString)
          else
            inr (incErrors (push
              (errorResult i (lit "Unknown") (lit "Invalid name or price")) st))
      | Some [] =>
          inr (incErrors (push
            (errorResult i (lit "Unknown") (lit "Invalid name or price")) st))
      | Some name =>
          if isNaN priceValue then
            inr (incErrors (push
              (errorResult i name (lit "Invalid name or price")) st))
          else
            let transformed :=
              if transformConfigured transformFunction
              then transformFunc rt i transformFunction name
              else Normal (VString name) in
            match transformed with
            | Throw e =>
                match errorMessage e with
                | None => inl (Uncaught (handlerAbort e))
                | Some m =>
                    inr (incErrors (push
                      (errorResult i name
                         (lit "Transform function error: " ++ m)) st))
                end
            | Normal VNotString => inl (Uncaught NameNotAString)
            | Normal (VString customerName) =>
                let timestamp := Date_now rt i in
                let discountCode := synthesize rt customerName timestamp in
                match tryBlock rt i customerName discountCode priceValue st with
                | Done st' => inr st'
                | Raised e st' =>
                    match errorMessage e with
                    | None => inl (Uncaught (handlerAbort e))
                    | Some m =>
                        inr (incErrors (push
                          (errorResult i customerName (lit "API Error: " ++ m)) st'))
                    end
                end
            end
      end
  end.

(** The rows after one that ended in [MemberAsCustomer] or
    [MemberToSnippet].  The code goes on with them, and an exception that
    one of them raises rejects the promise whatever was recorded before;
    that much the model follows.  After [MemberToSnippet] the exception may
    also be the earlier row's own. *)
Definition beyondMember (stop : Stop) (later : Stop + State) : Stop + State :=
  match later with
  | inl (Uncaught a) =>
      inl (Uncaught (match stop with
                     | MemberToSnippet => AfterSnippetOnMember
                     | _ => a
                     end))
  | _ => inl stop
  end.

(** Line 35: [for (let i = 0; i < data.length; i++)], entered at counter
    [i] with the rows still to be visited. *)
Fixpoint loop (rt : Runtime) (nameColumn priceColumn transformFunction : jsstring)
    (i : nat) (rows : list Row) (st : State) : Stop + State :=
  match rows with
  | [] => inr st
  | r :: rest =>
      match iteration rt nameColumn priceColumn transformFunction i r st with
      | inl (Uncaught a) => inl (Uncaught a)
      | inl stop =>
          beyondMember stop
            (loop rt nameColumn priceColumn transformFunction (S i) rest st)
      | inr st' => loop rt nameColumn priceColumn transformFunction (S i) rest st'
      end
  end.

(** How a call ends: the promise resolves to a report (the event log is
    given beside it), or it rejects.  [NotModelled] is the run in which an
    inherited member was taken for a name and no row raises an exception:
    the code returns a report then, or rejects in the row of
    [MemberToSnippet], and the model does not say which. *)
Inductive Outcome : Type :=
| Resolved (report : Report) (log : list Event)
| Rejected (a : Abort)
| NotModelled.

Definition generateDiscountCodes (rt : Runtime) (data : list Row)
    (nameColumn priceColumn transformFunction : jsstring) : Outcome :=
  match loop rt nameColumn priceColumn transformFunction 0 data initial with
  | inl (Uncaught a) => Rejected a
  | inl _ => NotModelled
  | inr st =>
      Resolved (mkReport (stResults st)
                  (mkSummary (length data) (successCount st) (errorCount st)))
               (events st)
  end.

End Discount.

(* ===================================================================== *)
(** ** The CSV exporter *)
(* ===================================================================== *)

Module CsvExport.
Import Js Model.

(** What an export function can throw: [new Error(message)], or the
    [TypeError] of [Object.keys(undefined)]. *)
Inductive Exception : Type :=
| Error (message : jsstring)
| TypeError.

Inductive Export : Type :=
| Csv (text : jsstring)
| Throws (e : Exception).

(** The [Map] from zero-based row index to result; a later result for the
    same row replaces an earlier one. *)
Definition buildResultMap (discountResults : list DiscountResult)
  : gmap Z DiscountResult :=
  foldl (fun m result => <[(row result - 1)%Z := result]> m) ∅ discountResults.

(** [value || ""] on an optional string. *)
Definition orEmpty (value : option jsstring) : jsstring :=
  match value with
  | Some s => s
  | None => []
  end.

(** [amount || ""], then printed: a falsy number prints as nothing. *)
Definition amountOrEmpty (a : option number) : jsstring :=
  match a with
  | Some x => if numberTruthy x then numberString x else []
  | None => []
  end.

(** [message || fallback] *)
Definition orElse (s fallback : jsstring) : jsstring :=
  match s with
  | [] => fallback
  | _ => s
  end.

(** Lines 43-46: the quoted cells of a record under the given headers. *)
Definition originalValues (originalHeaders : list jsstring) (r : Row)
  : list jsstring :=
  List.map (fun header => quoted (escapeQuotes (orEmpty (getCell r header))))
           originalHeaders.

(** Lines 49-61: the five appended cells. *)
Definition newValues (generatedAt : jsstring) (result : option DiscountResult)
  : list jsstring :=
  let discountCode := orEmpty (result ≫= discountCode) in
  let discountAmount := amountOrEmpty (result ≫= amount) in
  let generationStatus :=
    match result with
    | Some res => statusString (status res)
    | None => lit "not_processed"
    end in
  let generationMessage :=
    match result with
    | Some res => orElse (message res) (lit "Not processed")
    | None => lit "Not processed"
    end in
  [ quoted discountCode; quoted discountAmount; quoted generationStatus;
    quoted (escapeQuotes generationMessage); quoted generatedAt ].

Definition addedHeaders : list jsstring :=
  [ lit "Discount_Code"; lit "Discount_Amount"; lit "Generation_Status";
    lit "Generation_Message"; lit "Generated_At" ].

(** The cells of the data row written for the record at [index]. *)
Definition mergedCells (clock : nat -> jsstring)
    (resultMap : gmap Z DiscountResult) (originalHeaders : list jsstring)
    (index : nat) (r : Row) : list jsstring :=
  originalValues originalHeaders r
    ++ newValues (clock index) (resultMap !! Z.of_nat index).

(** [generateCSVWithCodes]; [clock index] is [new Date().toISOString()] as
    evaluated while the record at [index] is mapped. *)
Definition generateCSVWithCodes (clock : nat -> jsstring)
    (originalData : list Row) (discountResults : list DiscountResult) : Export :=
  match originalData, discountResults with
  | [], _ | _, [] => Throws (Error (lit "No data provided for CSV export"))
  | first :: _, _ :: _ =>
      let resultMap := buildResultMap discountResults in
      let originalHeaders := keys first in
      let newHeaders := originalHeaders ++ addedHeaders in
      let headerRow := join (lit ",") (List.map quoted newHeaders) in
      let dataRows :=
        imap (fun index r =>
                join (lit ",") (mergedCells clock resultMap originalHeaders index r))
             originalData in
      Csv (join [10] (headerRow :: dataRows))
  end.

Definition summaryHeaders : list jsstring :=
  [ lit "Row"; lit "Customer_Name"; lit "Discount_Code"; lit "Discount_Amount";
    lit "Status"; lit "Message"; lit "Generated_At" ].

(** Lines 85-95: the cells of one summary row. *)
Definition summaryCells (generatedAt : jsstring) (result : DiscountResult)
  : list jsstring :=
  let values :=
    [ intString (row result); customer result; orEmpty (discountCode result);
      amountOrEmpty (amount result); statusString (status result);
      message result; generatedAt ] in
  List.map (fun v => quoted (escapeQuotes v)) values.

(** [generateSummaryCSV]: it has no [throw]. *)
Definition generateSummaryCSV (clock : nat -> jsstring)
    (discountResults : list DiscountResult) : jsstring :=
  let headerRow := join (lit ",") (List.map quoted summaryHeaders) in
  let dataRows :=
    imap (fun index result => join (lit ",") (summaryCells (clock index) result))
         discountResults in
  join [10] (headerRow :: dataRows).

(** [r.status === "success" && r.discountCode] *)
Definition isSuccessful (r : DiscountResult) : bool :=
  match status r, discountCode r with
  | success, Some (_ :: _) => true
  | _, _ => false
  end.

(** Lines 128-140: the row for the record at [index], [None] for the
    [null] that the final filter drops. *)
Definition successfulRow (resultMap : gmap Z DiscountResult)
    (originalHeaders : list jsstring) (index : nat) (r : Row) : option jsstring :=
  match resultMap !! Z.of_nat index with
  | None => None
  | Some result =>
      match status result with
      | error => None
      | success =>
          let newValues :=
            [ quoted (template (discountCode result));
              quoted (match amount result with
                      | Some x => numberString x
                      | None => lit "undefined"
                      end) ] in
          Some (join (lit ",") (originalValues originalHeaders r ++ newValues))
      end
  end.

(** [generateSuccessfulCodesCSV] *)
Definition generateSuccessfulCodesCSV (originalData : list Row)
    (discountResults : list DiscountResult) : Export :=
  let successfulResults := List.filter isSuccessful discountResults in
  match successfulResults with
  | [] => Throws (Error (lit "No successful discount codes to export"))
  | _ :: _ =>
      let resultMap := buildResultMap successfulResults in
      match originalData with
      | [] => Throws TypeError
      | first :: _ =>
          let originalHeaders := keys first in
          let newHeaders :=
            originalHeaders ++ [lit "Discount_Code"; lit "Discount_Amount"] in
          let headerRow := join (lit ",") (List.map quoted newHeaders) in
          let dataRows :=
            omap id (imap (successfulRow resultMap originalHeaders) originalData) in
          Csv (join [10] (headerRow :: dataRows))
      end
  end.

End CsvExport.

(* ===================================================================== *)
(** ** Specification-side definitions and concrete scenarios *)
(* ===================================================================== *)

Module Scenario.
Import Js Model Discount CsvExport.

(** The code as the specification words it: upper-case the name, put [_]
    for every character outside [A-Z0-9], prefix the campaign tag, suffix
    the time value, keep at most 50 characters. *)
Definition underscoreOutsideAZ09 (c : N) : N :=
  if ((65 <=? c) && (c <=? 90)) || ((48 <=? c) && (c <=? 57)) then c else 95.

Definition codeBySpec (upper : jsstring -> jsstring) (name : jsstring)
    (millis : Z) : jsstring :=
  let full :=
    lit "KICKSTARTER_" ++ List.map underscoreOutsideAZ09 (upper name)
      ++ lit "_" ++ intString millis in
  if (length full <=? 50)%nat then full else firstn 50 full.

(** The name a row is processed under: the cell itself, or what the snippet
    returns for it when a snippet is configured. *)
Definition processedName (rt : Runtime) (transformFunction : jsstring)
    (i : nat) (name : jsstring) : option jsstring :=
  if transformConfigured transformFunction then
    match transformFunc rt i transformFunction name with
    | Normal (VString s) => Some s
    | _ => None
    end
  else Some name.

(** [amount === 0] *)
Definition isZero (x : number) : bool :=
  match x with
  | Finite _ [] _ => true
  | _ => false
  end.





(** [toUpperCase] on ASCII text. *)
Definition asciiUpper (s : jsstring) : jsstring :=
  List.map (fun c => if (97 <=? c) && (c <=? 122) then c - 32 else c) s.

Definition nameColumn : jsstring := lit "name".
Definition priceColumn : jsstring := lit "price".

(** U+00A3, the pound sign. *)
Definition pound : jsstring := [163].

Definition alice : Row :=
  [(nameColumn, lit "Alice"); (priceColumn, pound ++ lit "25.00")].
Definition bob : Row :=
  [(nameColumn, lit "Bob"); (priceColumn, lit "oops")].
Definition alicePlain : Row :=
  [(nameColumn, lit "Alice"); (priceColumn, lit "25.00")].
Definition aliceAsSpelled : Row :=
  [(nameColumn, lit "Alice"); (priceColumn, currencyLiteral ++ lit "25.00")].
Definition blankNameNoPrice : Row := [(nameColumn, [])].
Definition carolNoPrice : Row := [(nameColumn, lit "Carol")].
Definition noName : Row := [(priceColumn, lit "10")].

Definition created : Body := BodyValue None (Some (Some (mkPayload (Some [])))).
Definition rejectedByShop : Body :=
  BodyValue None (Some (Some (mkPayload (Some
    [mkUserError (Some [lit "basicCodeDiscount"; lit "code"])
                 (Some (lit "Code must be unique"))])))).
Definition throttledBody : Body := BodyValue (Some [Some (lit "Throttled")]) None.
Definition noPayload : Body := BodyValue None (Some None).

(** A fetch-style response whose [json()] resolves to [b]. *)
Definition fetched (b : Body) : Response :=
  mkResponse (Some (Normal b)) (BodyValue None None) (Normal []).

(** A response that only offers [text()]. *)
Definition textOnly (t : jsstring) : Response :=
  mkResponse None (BodyValue None None) (Normal t).

Definition isoStamp : jsstring := lit "2024-05-01T10:00:00.000Z".
Definition clock0 (index : nat) : jsstring := isoStamp.

Definition runtimeWith
    (snippet : nat -> jsstring -> jsstring -> Completion SnippetValue)
    (remote : nat -> DiscountCodeBasicInput -> Completion Response) : Runtime :=
  mkRuntime asciiUpper (fun i => 1714557600000 + Z.of_nat i)%Z (fun _ => isoStamp)
            snippet remote (fun _ => None).

Definition identitySnippet (i : nat) (src name : jsstring)
  : Completion SnippetValue := Normal (VString name).

(** The remote mutation always succeeds. *)
Definition alwaysSucceeds : Runtime :=
  runtimeWith identitySnippet (fun _ _ => Normal (fetched created)).
Definition shopRejects : Runtime :=
  runtimeWith identitySnippet (fun _ _ => Normal (fetched rejectedByShop)).
Definition throttled : Runtime :=
  runtimeWith identitySnippet (fun _ _ => Normal (fetched throttledBody)).
Definition emptyData : Runtime :=
  runtimeWith identitySnippet (fun _ _ => Normal (fetched noPayload)).
Definition garbled : Runtime :=
  runtimeWith identitySnippet (fun _ _ => Normal (textOnly (lit "<html>"))).
Definition transportDown : Runtime :=
  runtimeWith identitySnippet
    (fun _ _ => Throw (ThrownValue (Some (lit "fetch failed")))).

(** A snippet that throws [new Error("boom")]. *)
Definition snippetThrows : Runtime :=
  runtimeWith (fun _ _ _ => Throw (ThrownValue (Some (lit "boom"))))
              (fun _ _ => Normal (fetched created)).
(** A snippet that returns the name with a title in front. *)
Definition titleSnippet : Runtime :=
  runtimeWith (fun _ _ name => Normal (VString (lit "Dr. " ++ name)))
              (fun _ _ => Normal (fetched created)).



(** A record with no cell at all. *)
Definition emptyRecord : Row := [].

Definition someSnippet : jsstring := lit "name.trim();".

Definition aliceCode : jsstring := lit "KICKSTARTER_ALICE_1714557600000".
Definition aliceRequest : DiscountCodeBasicInput :=
  mkInput (lit "Kickstarter Backer - Alice") aliceCode isoStamp true (lit "25")
          true true 1.
Definition twentyFive : number := Finite false [2; 5] 2.
Definition zero : number := Finite false [] 0.

Definition aliceSuccess : DiscountResult :=
  mkResult 1 (lit "Alice") success (Some aliceCode) (Some twentyFive)
           (lit "Discount code created successfully").
Definition freeOfCharge : DiscountResult :=
  mkResult 1 (lit "Dana") success (Some (lit "KICKSTARTER_DANA_1")) (Some zero)
           (lit "Discount code created successfully").
Definition successWithoutCode : DiscountResult :=
  mkResult 1 (lit "Alice") success None (Some twentyFive)
           (lit "Discount code created successfully").
Definition bobInvalid : DiscountResult :=
  mkResult 2 (lit "Bob") error None None (lit "Invalid name or price").

Definition tierColumn : jsstring := lit "backing_tier".
Definition aliceTier : Row :=
  [(nameColumn, lit "Alice"); (priceColumn, lit "25.00"); (tierColumn, lit "Gold")].
Definition bobTier : Row :=
  [(nameColumn, lit "Bob"); (priceColumn, lit "oops"); (tierColumn, lit "Silver")].
Definition danaTier : Row :=
  [(nameColumn, lit "Dana"); (priceColumn, lit "0"); (tierColumn, lit "Free")].

(** What the iteration for the record [r] at counter [i] leaves behind:
    the result [res] it pushed and the events [evs] it logged.  Every
    remote call is made for this row, under the processed name, with the
    synthesised code; a success comes with that code, one call and the
    delay. *)
Definition RowFacts (rt : Runtime) (nameCol transformFunction : jsstring)
    (i : nat) (r : Row) (res : DiscountResult) (evs : list Event) : Prop :=
  row res = (Z.of_nat i + 1)%Z
  /\ (forall j v, In (EvGraphql j v) evs ->
        j = i /\ exists orig name,
          getCell r nameCol = Some orig
          /\ processedName rt transformFunction i orig = Some name
          /\ code v = synthesize rt name (Date_now rt i))
  /\ (status res = success ->
        exists orig name v,
          getCell r nameCol = Some orig
          /\ processedName rt transformFunction i orig = Some name
          /\ customer res = name
          /\ discountCode res = Some (synthesize rt name (Date_now rt i))
          /\ evs = [EvGraphql i v; EvSleep 600]).

(** The number of results with a given status. *)
Definition statusEqb (a b : Status) : bool :=
  match a, b with
  | success, success | error, error => true
  | _, _ => false
  end.

Definition countStatus (s : Status) (rs : list DiscountResult) : nat :=
  length (List.filter (fun r => statusEqb (status r) s) rs).

End Scenario.

(* ===================================================================== *)
(** ** [parseCSV] *)
(* ===================================================================== *)

Module Upload.
Import Js Model.

(** What the [csv-parser] stream emits to the four handlers that [parseCSV]
    registers.  A stream emits nothing after [end] or [error]. *)
Inductive StreamEvent : Type :=
| OnHeaders (headerList : list jsstring)
| OnData (data : Row)
| OnEnd
| OnError (message : jsstring).

Record ParsedTable : Type := mkTable {
  headers : list jsstring;
  data : list Row;
  rowCount : nat
}.

(** The promise returned by [parseCSV]: resolved, rejected with
    [new Error(message)], or never settled. *)
Inductive Parsed : Type :=
| Parses (table : ParsedTable)
| Fails (message : jsstring)
| Pending.

(** The handlers, run over the events in order, on the locals [results],
    [headers] and [isFirstRow]. *)
Fixpoint deliver (stream : list StreamEvent) (results : list Row)
    (headers : list jsstring) (isFirstRow : bool) : Parsed :=
  match stream with
  | [] => Pending
  | OnHeaders headerList :: rest => deliver rest results headerList isFirstRow
  | OnData data :: rest => deliver rest (results ++ [data]) headers false
  | OnEnd :: _ => Parses (mkTable headers results (length results))
  | OnError message :: _ => Fails (lit "Error parsing CSV: " ++ message)
  end.

(** [parseCSV], from the events of the stream piped through [csv()]. *)
Definition parseCSV (stream : list StreamEvent) : Parsed :=
  deliver stream [] [] true.

End Upload.

(* ===================================================================== *)
(** ** The Export button of the index page *)
(* ===================================================================== *)

Module ResultsPage.
Import Js Model CsvExport.

(** One line of the download: five cells in quotes, none of them escaped. *)
Definition resultLine (r : DiscountResult) : jsstring :=
  quoted (customer r) ++ lit "," ++ quoted (orEmpty (discountCode r)) ++ lit ","
    ++ quoted (amountOrEmpty (amount r)) ++ lit ","
    ++ quoted (statusString (status r)) ++ lit "," ++ quoted (message r).

(** [csvContent] of the click handler. *)
Definition csvContent (results : list DiscountResult) : jsstring :=
  join [10]
    (lit "Customer,Discount Code,Amount,Status,Message" :: List.map resultLine results).

End ResultsPage.

(* ===================================================================== *)
(** ** Notions used to state further properties *)
(* ===================================================================== *)

Module Notions.
Import Js Model Discount CsvExport Scenario.

(** The variables of the mutation sent for a row (lines 79-100). *)
Definition requestFor (rt : Runtime) (i : nat) (customerName : jsstring)
    (priceValue : number) : DiscountCodeBasicInput :=
  mkInput (lit "Kickstarter Backer - " ++ customerName)
          (synthesize rt customerName (Date_now rt i))
          (toISOString rt i) true (numberString priceValue) true true 1.

(** The parsed price of a row. *)
Definition priceOf (cell : jsstring) : number :=
  parseFloat (replace currencyLiteral [] cell).

(** The five ways an iteration can complete, with the result it pushes and
    the events it logs. *)
Inductive RowDetail (rt : Runtime) (nameCol priceCol tf : jsstring)
    (i : nat) (r : Row) : DiscountResult -> list Event -> Prop :=
| NameMissing cell :
    getCell r priceCol = Some cell ->
    getCell r nameCol = None \/ getCell r nameCol = Some [] ->
    RowDetail rt nameCol priceCol tf i r
      (errorResult i (lit "Unknown") (lit "Invalid name or price")) []
| PriceInvalid cell name :
    getCell r priceCol = Some cell ->
    getCell r nameCol = Some name -> name <> [] ->
    isNaN (priceOf cell) = true ->
    RowDetail rt nameCol priceCol tf i r
      (errorResult i name (lit "Invalid name or price")) []
| TransformThrew cell name m :
    getCell r priceCol = Some cell ->
    getCell r nameCol = Some name -> name <> [] ->
    isNaN (priceOf cell) = false ->
    transformConfigured tf = true ->
    transformFunc rt i tf name = Throw (ThrownValue m) ->
    RowDetail rt nameCol priceCol tf i r
      (errorResult i name (lit "Transform function error: " ++ template m)) []
| CallFailed cell orig name msg tail :
    getCell r priceCol = Some cell ->
    getCell r nameCol = Some orig -> orig <> [] ->
    isNaN (priceOf cell) = false ->
    processedName rt tf i orig = Some name ->
    tail = [] \/ tail = [EvSleep 600] ->
    RowDetail rt nameCol priceCol tf i r
      (errorResult i name msg)
      (EvGraphql i (requestFor rt i name (priceOf cell)) :: tail)
| Created cell orig name :
    getCell r priceCol = Some cell ->
    getCell r nameCol = Some orig -> orig <> [] ->
    isNaN (priceOf cell) = false ->
    processedName rt tf i orig = Some name ->
    RowDetail rt nameCol priceCol tf i r
      (mkResult (Z.of_nat i + 1) name success
                (Some (synthesize rt name (Date_now rt i))) (Some (priceOf cell))
                (lit "Discount code created successfully"))
      [EvGraphql i (requestFor rt i name (priceOf cell)); EvSleep 600].

Definition isCall (ev : Event) : bool :=
  match ev with EvGraphql _ _ => true | EvSleep _ => false end.

Definition isSleep (ev : Event) : bool :=
  match ev with EvGraphql _ _ => false | EvSleep _ => true end.

(** The code units a synthesised code is made of. *)
Definition codeUnit (c : N) : bool :=
  isUpperAZ c || isDigit c || (c =? 95) || (c =? 45).

(** No double quote in the string. *)
Definition quoteFree (s : jsstring) : bool := forallb (fun c => negb (c =? 34)) s.

(** The last result of the list that carries the given zero-based row. *)
Definition lastForRow (key : Z) (discountResults : list DiscountResult)
  : option DiscountResult :=
  last (List.filter (fun res => (row res - 1 =? key)%Z) discountResults).

(** A reader of one line of quoted cells separated by commas, with doubled
    quotes inside a cell standing for one; a device for the proofs. *)
Inductive ReadState : Type := AtStart | AfterComma | InCell | AfterQuote.

Fixpoint readCells (st : ReadState) (cell : jsstring) (cells : list jsstring)
    (s : jsstring) : option (list jsstring) :=
  match s with
  | [] =>
      match st with
      | AtStart => Some cells
      | AfterQuote => Some (cells ++ [cell])
      | _ => None
      end
  | c :: s' =>
      match st with
      | AtStart | AfterComma =>
          if c =? 34 then readCells InCell [] cells s' else None
      | InCell =>
          if c =? 34 then readCells AfterQuote cell cells s'
          else readCells InCell (cell ++ [c]) cells s'
      | AfterQuote =>
          if c =? 34 then readCells InCell (cell ++ [34]) cells s'
          else if c =? 44 then readCells AfterComma [] (cells ++ [cell]) s'
          else None
      end
  end.

(** The rows delivered before the stream ends. *)
Fixpoint rowsDelivered (stream : list Upload.StreamEvent) : list Row :=
  match stream with
  | Upload.OnData d :: rest => d :: rowsDelivered rest
  | Upload.OnHeaders _ :: rest => rowsDelivered rest
  | _ => []
  end.

(** The header list in force when the stream ends: the last one announced. *)
Fixpoint headersDelivered (stream : list Upload.StreamEvent) (current : list jsstring)
  : list jsstring :=
  match stream with
  | Upload.OnHeaders l :: rest => headersDelivered rest l
  | Upload.OnData _ :: rest => headersDelivered rest current
  | _ => current
  end.

(** How the stream terminates, if it does. *)
Fixpoint termination (stream : list Upload.StreamEvent) : option Upload.StreamEvent :=
  match stream with
  | [] => None
  | Upload.OnEnd :: _ => Some Upload.OnEnd
  | Upload.OnError m :: _ => Some (Upload.OnError m)
  | _ :: rest => termination rest
  end.

Definition shortLine : list Upload.StreamEvent :=
  [ Upload.OnHeaders [nameColumn; priceColumn];
    Upload.OnData alicePlain; Upload.OnData carolNoPrice; Upload.OnEnd ].

Definition brokenFile : list Upload.StreamEvent :=
  [ Upload.OnHeaders [nameColumn; priceColumn];
    Upload.OnData alicePlain; Upload.OnError (lit "Unexpected end of input") ].

Definition longName : jsstring :=
  lit "Maximilian Alexander von Hohenzollern-Sigmaringen".

Definition quotedCustomer : DiscountResult :=
  mkResult 3 (34 :: lit "Ace" ++ [34] ++ lit ", Inc") error None None
           (lit "Invalid name or price").

End Notions.

(* ===================================================================== *)
(** ** Properties of [generateDiscountCodes] *)
(* ===================================================================== *)

Import Js Model Discount CsvExport Scenario.
Local Open Scope nat_scope.

(** *** The built-ins on a few inputs *)

Lemma str_eqb_eq (a b : jsstring) : str_eqb a b = true <-> a = b.
Proof.
  revert b. induction a as [|x a IH]; intros [|y b]; simpl; try done.
  rewrite andb_true_iff, N.eqb_eq, IH.
  split; [by intros [-> ->] | by intros [= -> ->]].
Qed.

Example parseFloat_plain : parseFloat (lit "25.00") = twentyFive.
Proof. reflexivity. Qed.

Example parseFloat_pound : parseFloat (pound ++ lit "25.00") = NaN.
Proof. reflexivity. Qed.

Example parseFloat_prefix :
  parseFloat (lit "  -12.50e1 GBP") = Finite true [1%N; 2%N; 5%N] 3.
Proof. reflexivity. Qed.

Example parseFloat_words : parseFloat (lit "oops") = NaN.
Proof. reflexivity. Qed.

Example parseFloat_range :
  List.map (fun s => parseFloat (lit s))
           ["1e400"; "-1e400"; "1.7976931348623159e308"; "1e-400"; "2e-324"]%string
  = [Infinity false; Infinity true; Infinity false; Finite false [] 0; Finite false [] 0]
  /\ parseFloat (lit "3e-324") = Finite false [3%N] (-323)
  /\ isNaN (parseFloat (lit "1.7976931348623158e308")) = false
  /\ numberTruthy (parseFloat (lit "1e-400")) = false.
Proof. split_and!; vm_compute; reflexivity. Qed.

Example replace_first_only :
  replace (lit "ab") [] (lit "xabyab") = lit "xyab".
Proof. reflexivity. Qed.

Example replace_leaves_pound :
  replace currencyLiteral [] (pound ++ lit "25.00") = pound ++ lit "25.00".
Proof. reflexivity. Qed.

Example numberString_samples :
  List.map (fun s => numberString (parseFloat (lit s)))
           ["25.00"; "0.5"; "-0"; "1e21"; "0.0000001"; "12345.678"; "x"]%string
  = List.map lit ["25"; "0.5"; "0"; "1e+21"; "1e-7"; "12345.678"; "NaN"]%string.
Proof. reflexivity. Qed.

Example trim_blank : transformConfigured (lit "   ") = false.
Proof. reflexivity. Qed.

Lemma countStatus_app s xs ys :
  countStatus s (xs ++ ys) = countStatus s xs + countStatus s ys.
Proof. unfold countStatus. by rewrite List.filter_app, length_app. Qed.


(** The loop reaches its end only through iterations that complete. *)
Lemma beyondMember_stops stop later : exists s, beyondMember stop later = inl s.
Proof. unfold beyondMember. repeat case_match; eauto. Qed.

Lemma loop_cons_completes rt nameCol priceCol tf i r rest st st' :
  loop rt nameCol priceCol tf i (r :: rest) st = inr st' ->
  exists st1,
    iteration rt nameCol priceCol tf i r st = inr st1
    /\ loop rt nameCol priceCol tf (S i) rest st1 = inr st'.
Proof.
  cbn [loop]. intros H.
  destruct (iteration _ _ _ _ _ _ _) as [[a| |]|st1]; [done| | |by eauto].
  all: match type of H with
       | beyondMember ?stop ?later = _ =>
           by destruct (beyondMember_stops stop later) as [s Hs]; rewrite Hs in H
       end.
Qed.

Section Generator.

Variable rt : Runtime.
Variables nameCol priceCol transformFunction : jsstring.

Local Abbreviation iter := (iteration rt nameCol priceCol transformFunction).
Local Abbreviation run := (loop rt nameCol priceCol transformFunction).

(** A [try] block that completes has pushed one result and logged the call,
    followed by the delay or by nothing. *)
Lemma tryBlock_done i name dcode price st st' :
  tryBlock rt i name dcode price st = Done st' ->
  exists res v tail,
    stResults st' = stResults st ++ [res]
    /\ events st' = events st ++ EvGraphql i v :: tail
    /\ successCount st' = successCount st + countStatus success [res]
    /\ errorCount st' = errorCount st + countStatus error [res]
    /\ row res = (Z.of_nat i + 1)%Z
    /\ customer res = name
    /\ code v = dcode
    /\ (tail = [] \/ tail = [EvSleep 600])
    /\ (status res = success ->
          discountCode res = Some dcode /\ tail = [EvSleep 600]).
Proof.
  unfold tryBlock. intros H.
  repeat case_match; simplify_eq;
    cbn [stResults events push incErrors incSuccess emit successCount errorCount];
    rewrite <- ?app_assoc; cbn [app];
    do 3 eexists; (split; [reflexivity|]); (split; [reflexivity|]);
    unfold countStatus; cbn;
    repeat split; try lia; eauto; try done.
Qed.

(** A [try] block that throws has logged the call and nothing else. *)
Lemma tryBlock_raised i name dcode price st e st' :
  tryBlock rt i name dcode price st = Raised e st' ->
  exists v,
    stResults st' = stResults st /\ successCount st' = successCount st
    /\ errorCount st' = errorCount st
    /\ events st' = events st ++ [EvGraphql i v] /\ code v = dcode.
Proof.
  unfold tryBlock. intros H.
  repeat case_match; simplify_eq; simpl; eexists; done.
Qed.

(** Every completed iteration pushes exactly one result, advances exactly
    one counter, and satisfies [RowFacts]. *)
Lemma iteration_facts i r st st' :
  iter i r st = inr st' ->
  exists res evs,
    stResults st' = stResults st ++ [res]
    /\ events st' = events st ++ evs
    /\ successCount st' = successCount st + countStatus success [res]
    /\ errorCount st' = errorCount st + countStatus error [res]
    /\ RowFacts rt nameCol transformFunction i r res evs.
Proof.
  unfold iteration, RowFacts, processedName. intros H.
  destruct (getCell r priceCol) as [cell|]; [|done].
  destruct (getCell r nameCol) as [[|c name]|] eqn:Hname.
  3: { destruct (inheritedMember nameCol); [by repeat case_match|].
       simplify_eq; exists (errorResult i (lit "Unknown") (lit "Invalid name or price")), [];
       rewrite app_nil_r; unfold countStatus, errorResult; cbn;
       repeat split; unfold errorResult; cbn; try lia; try done. }
  1: { simplify_eq; exists (errorResult i (lit "Unknown") (lit "Invalid name or price")), [];
       rewrite app_nil_r; unfold countStatus, errorResult; cbn;
       repeat split; unfold errorResult; cbn; try lia; try done. }
  destruct (isNaN _).
  { simplify_eq. eexists _, []. rewrite app_nil_r. unfold countStatus, errorResult. cbn.
    repeat split; unfold errorResult; cbn; try lia; try done. }
  set (orig := c :: name) in *.
  destruct (if transformConfigured transformFunction then _ else _)
    as [[s|]|e] eqn:Htr; [| done |].
  - assert (Hp : (if transformConfigured transformFunction
                  then match transformFunc rt i transformFunction orig with
                       | Normal (VString s0) => Some s0
                       | _ => None
                       end
                  else Some orig) = Some s).
    { destruct (transformConfigured transformFunction); [by rewrite Htr|].
      by simplify_eq. }
    destruct (tryBlock _ _ _ _ _ _) as [st1|e st1] eqn:Htry.
    + simplify_eq.
      apply tryBlock_done in Htry
        as (res & v & tail & Hres & Hev & Hs & He & Hrow & Hcust & Hcode & Htail & Hok).
      exists res, (EvGraphql i v :: tail).
      repeat split; try done.
      * destruct H as [H|H]; [by simplify_eq|].
        destruct Htail as [->| ->]; simpl in H; [done|]. by destruct H.
      * destruct H as [H|H]; [simplify_eq; eauto 6|].
        destruct Htail as [->| ->]; simpl in H; [done|]. by destruct H.
      * intros Hst. destruct (Hok Hst) as [Hd ->]. eauto 10.
    + apply tryBlock_raised in Htry as (v & Hres & Hs & He & Hev & Hcode).
      destruct (errorMessage e) as [m|]; [|done]. simplify_eq.
      eexists _, [EvGraphql i v]. cbn. rewrite Hres, Hs, He, Hev.
      unfold countStatus, errorResult. cbn.
      repeat split; unfold errorResult; cbn; try lia; try done.
      * destruct H as [H|[]]. by simplify_eq.
      * destruct H as [H|[]]. simplify_eq. eauto 6.
  - destruct (errorMessage e) as [m|]; [|done]. simplify_eq.
    eexists _, []. rewrite app_nil_r. unfold countStatus, errorResult. cbn.
    repeat split; unfold errorResult; cbn; try lia; try done.
Qed.

(** The loop, entered at counter [i], leaves one result and one group of
    events per row, in row order. *)
Lemma loop_facts rows : forall i st st',
  run i rows st = inr st' ->
  exists steps : list (DiscountResult * list Event),
    length steps = length rows
    /\ stResults st' = stResults st ++ List.map fst steps
    /\ events st' = events st ++ concat (List.map snd steps)
    /\ successCount st' = successCount st + countStatus success (List.map fst steps)
    /\ errorCount st' = errorCount st + countStatus error (List.map fst steps)
    /\ (forall k r res evs,
          rows !! k = Some r -> steps !! k = Some (res, evs) ->
          RowFacts rt nameCol transformFunction (i + k) r res evs).
Proof.
  induction rows as [|r rest IH]; intros i st st' H.
  - simpl in H. simplify_eq. exists []. simpl. rewrite !app_nil_r.
    split_and!; try done; unfold countStatus; simpl; lia.
  - apply loop_cons_completes in H as (st1 & Hstep & H).
    apply iteration_facts in Hstep as (res & evs & Hres1 & Hev1 & Hs1 & He1 & Hfacts).
    apply IH in H as (steps & Hlen & Hres & Hev & Hs & He & Hrows).
    exists ((res, evs) :: steps). simpl.
    rewrite Hres, Hres1, Hev, Hev1, <- !app_assoc. simpl.
    split_and!; try done.
    + by rewrite Hlen.
    + rewrite Hs, Hs1. change (res :: List.map fst steps) with ([res] ++ List.map fst steps).
      rewrite countStatus_app. lia.
    + rewrite He, He1. change (res :: List.map fst steps) with ([res] ++ List.map fst steps).
      rewrite countStatus_app. lia.
    + intros [|k] r' res' evs' Hk Hk'; simpl in Hk, Hk'.
      * simplify_eq. by rewrite Nat.add_0_r.
      * replace (i + S k) with (S i + k) by lia. by eapply Hrows.
Qed.




(** *** The validation branch (lines 37-51) *)

Lemma iteration_price_cell_missing i r st :
  getCell r priceCol = None ->
  iter i r st = inl (Uncaught (if inheritedMember priceCol then PriceCellNotAString
                               else PriceCellUndefined)).
Proof. unfold iteration. by intros ->. Qed.

Lemma iteration_name_missing i r st cell :
  getCell r priceCol = Some cell ->
  (getCell r nameCol = None /\ inheritedMember nameCol = false)
  \/ getCell r nameCol = Some [] ->
  iter i r st
  = inr (incErrors (push (errorResult i (lit "Unknown")
                            (lit "Invalid name or price")) st)).
Proof. unfold iteration. by intros -> [[-> ->] | ->]. Qed.

Lemma iteration_price_invalid i r st name cell :
  getCell r nameCol = Some name -> name <> [] ->
  getCell r priceCol = Some cell ->
  isNaN (parseFloat (replace currencyLiteral [] cell)) = true ->
  iter i r st
  = inr (incErrors (push (errorResult i name (lit "Invalid name or price")) st)).
Proof.
  unfold iteration. intros -> Hne -> ->. by destruct name.
Qed.

(** *** The transform branch (lines 54-68) *)


End Generator.

(** *** The code of lines 71-76 against the wording of the specification *)

Lemma replaceNonAZ09_spec s :
  replaceNonAZ09 s = List.map underscoreOutsideAZ09 s.
Proof. reflexivity. Qed.

Lemma synthesize_spec rt name millis :
  synthesize rt name millis = codeBySpec (toUpperCase rt) name millis.
Proof.
  unfold synthesize, codeBySpec, substring0, campaignTag.
  rewrite replaceNonAZ09_spec.
  destruct (_ <=? 50) eqn:Hlen; [|done].
  apply Nat.leb_le in Hlen. by apply firstn_all2.
Qed.

Lemma synthesize_length rt name millis :
  length (synthesize rt name millis) <= 50.
Proof. unfold synthesize, substring0. rewrite length_firstn. lia. Qed.

Lemma synthesize_prefix rt name millis :
  firstn 12 (synthesize rt name millis) = campaignTag.
Proof.
  unfold synthesize, substring0. rewrite firstn_firstn.
  reflexivity.
Qed.

Example synthesize_transformed_name :
  exists v,
    generateDiscountCodes titleSnippet [alicePlain] nameColumn priceColumn someSnippet
    = Resolved
        (mkReport
           [ mkResult 1 (lit "Dr. Alice") success
               (Some (lit "KICKSTARTER_DR__ALICE_1714557600000")) (Some twentyFive)
               (lit "Discount code created successfully") ]
           (mkSummary 1 1 0))
        [EvGraphql 0 v; EvSleep 600]
    /\ code v = lit "KICKSTARTER_DR__ALICE_1714557600000"
    /\ title v = lit "Kickstarter Backer - Dr. Alice".
Proof. eexists. split_and!; reflexivity. Qed.

(** A column name that every record inherits as a member: a record without
    its own cell of that name does not count as nameless.  With a price that
    parses and no snippet, line 72 calls [toUpperCase] on the function; as a
    price column, the member has no [replace] at line 38.  A record that has
    its own cell of that name is processed as usual. *)
Example name_column_toString :
  generateDiscountCodes alwaysSucceeds [alicePlain] (lit "toString") priceColumn []
  = Rejected NameNotAString
  /\ generateDiscountCodes alwaysSucceeds [alicePlain] nameColumn (lit "valueOf") []
     = Rejected PriceCellNotAString
  /\ generateDiscountCodes alwaysSucceeds [bob] (lit "toString") priceColumn []
     = NotModelled
  /\ generateDiscountCodes alwaysSucceeds [bob; emptyRecord] (lit "toString")
       priceColumn [] = Rejected PriceCellUndefined
  /\ exists v,
       generateDiscountCodes alwaysSucceeds
         [[(lit "toString", lit "Alice"); (priceColumn, lit "25.00")]]
         (lit "toString") priceColumn []
       = Resolved (mkReport [aliceSuccess] (mkSummary 1 1 0))
                  [EvGraphql 0 v; EvSleep 600].
Proof. split_and!; try reflexivity. eexists. reflexivity. Qed.

Example synthesize_truncates :
  synthesize alwaysSucceeds (lit "Maximilian Alexander von Hohenzollern-Sigmaringen")
             1714557600000
  = lit "KICKSTARTER_MAXIMILIAN_ALEXANDER_VON_HOHENZOLLERN_".
Proof. reflexivity. Qed.

(** *** Runs as a whole *)

Lemma run_facts rt data nameCol priceCol tf report log :
  generateDiscountCodes rt data nameCol priceCol tf = Resolved report log ->
  exists steps : list (DiscountResult * list Event),
    length steps = length data
    /\ results report = List.map fst steps
    /\ log = concat (List.map snd steps)
    /\ total (summary report) = length data
    /\ successful (summary report) = countStatus success (results report)
    /\ errors (summary report) = countStatus error (results report)
    /\ (forall k r res evs,
          data !! k = Some r -> steps !! k = Some (res, evs) ->
          RowFacts rt nameCol tf k r res evs).
Proof.
  unfold generateDiscountCodes. intros H.
  destruct (loop _ _ _ _ _ _ _) as [a|st] eqn:Hloop; [by destruct a|].
  apply loop_facts in Hloop as (steps & Hlen & Hres & Hev & Hs & He & Hrows).
  simpl in Hres, Hev, Hs, He. simplify_eq. simpl.
  exists steps. rewrite Hres. by split_and!.
Qed.

(* ===================================================================== *)
(** ** Claims about [generateDiscountCodes] *)
(* ===================================================================== *)




(** C2, on the code.  In the scenario of the claim the price cell begins with
    U+00A3, while line 38 strips the two code units U+00C2 U+00A3; nothing is
    stripped, [parseFloat] meets the pound sign first and yields [NaN], and
    Alice is rejected like Bob, before any remote call, whatever the runtime:
    the summary is total 2, successful 0, errors 2. *)
Theorem scenario_pound_price_is_rejected (rt : Runtime) :
  generateDiscountCodes rt [alice; bob] nameColumn priceColumn []
  = Resolved
      (mkReport
         [ mkResult 1 (lit "Alice") error None None (lit "Invalid name or price");
           mkResult 2 (lit "Bob") error None None (lit "Invalid name or price") ]
         (mkSummary 2 0 2))
      [].
Proof. reflexivity. Qed.

(** The same scenario with the price cell spelled the way line 38 expects it,
    or with no currency sign: Alice gets her code and the amount 25. *)
Lemma scenario_stripped_price_succeeds :
  forall first, first = aliceAsSpelled \/ first = alicePlain ->
  generateDiscountCodes alwaysSucceeds [first; bob] nameColumn priceColumn []
  = Resolved (mkReport [aliceSuccess; bobInvalid] (mkSummary 2 1 1))
             [EvGraphql 0 aliceRequest; EvSleep 600].
Proof. intros first [-> | ->]; reflexivity. Qed.

(** C3, on the code.  A record with an empty name and no price cell: line 38
    calls [replace] on [undefined] before the check of line 42 is reached, so
    the promise rejects with a [TypeError] and no result is appended.  The
    same happens when the name is present. *)
Theorem row_without_price_cell_rejects (rt : Runtime) (tf : jsstring) :
  generateDiscountCodes rt [blankNameNoPrice] nameColumn priceColumn tf
  = Rejected PriceCellUndefined
  /\ generateDiscountCodes rt [carolNoPrice; bob] nameColumn priceColumn tf
     = Rejected PriceCellUndefined.
Proof. split; reflexivity. Qed.




(** C5, on the code.  Two rows whose remote call is attempted and fails, in
    each of the four ways that leave the [try] block early (top-level GraphQL
    errors, a missing payload, an undecodable body, a rejected call): the log
    holds the two calls back to back, with no delay after either. *)
Theorem failed_call_is_not_followed_by_delay :
  forall rt : Runtime,
    rt = throttled \/ rt = emptyData \/ rt = garbled \/ rt = transportDown ->
    exists r1 r2 v1 v2,
      generateDiscountCodes rt [alicePlain; alicePlain] nameColumn priceColumn []
      = Resolved (mkReport [r1; r2] (mkSummary 2 0 2))
                 [EvGraphql 0 v1; EvGraphql 1 v2]
      /\ status r1 = error /\ status r2 = error.
Proof.
  intros rt [-> | [-> | [-> | ->]]]; do 4 eexists; split_and!; reflexivity.
Qed.

Lemma failed_call_is_not_followed_by_delay_witness :
  exists r1 r2 v1 v2,
    generateDiscountCodes throttled [alicePlain; alicePlain] nameColumn priceColumn []
    = Resolved (mkReport [r1; r2] (mkSummary 2 0 2))
               [EvGraphql 0 v1; EvGraphql 1 v2]
    /\ status r1 = error /\ status r2 = error.
Proof.
  apply (failed_call_is_not_followed_by_delay throttled). left. reflexivity.
Defined.

(** Where the delay is slept: after a call that came back with a payload,
    accepted or refused by the shop. *)
Lemma answered_call_is_followed_by_delay :
  forall rt : Runtime, rt = alwaysSucceeds \/ rt = shopRejects ->
  exists r1 v1 s e,
    generateDiscountCodes rt [alicePlain] nameColumn priceColumn []
    = Resolved (mkReport [r1] (mkSummary 1 s e)) [EvGraphql 0 v1; EvSleep 600].
Proof. intros rt [-> | ->]; do 4 eexists; reflexivity. Qed.

(** C6.  In every run that resolves, each remote call is made for a row of
    the input under its processed name (the name cell, or what the snippet
    returned for it), and the code it carries is the one the specification
    describes: the campaign tag, the upper-cased name with [_] for everything
    outside [A-Z0-9], [_] and the millisecond time value, cut to 50 code
    units; and every success result holds that same code. *)
Theorem discount_code_as_specified
    (rt : Runtime) (data : list Row) (nameCol priceCol tf : jsstring)
    (report : Report) (log : list Event) :
  generateDiscountCodes rt data nameCol priceCol tf = Resolved report log ->
  (forall j v, In (EvGraphql j v) log ->
     exists r orig name,
       data !! j = Some r
       /\ getCell r nameCol = Some orig
       /\ processedName rt tf j orig = Some name
       /\ code v = codeBySpec (toUpperCase rt) name (Date_now rt j)
       /\ length (code v) <= 50
       /\ firstn 12 (code v) = lit "KICKSTARTER_")
  /\ (forall k res, results report !! k = Some res -> status res = success ->
        exists r orig name,
          data !! k = Some r
          /\ getCell r nameCol = Some orig
          /\ processedName rt tf k orig = Some name
          /\ discountCode res
             = Some (codeBySpec (toUpperCase rt) name (Date_now rt k))).
Proof.
  intros H.
  apply run_facts in H as (steps & Hlen & Hres & Hlog & _ & _ & _ & Hrows).
  split.
  - intros j v Hin. rewrite Hlog in Hin.
    apply in_concat in Hin as (evs & Hevs & Hin).
    apply in_map_iff in Hevs as ([res evs'] & Heq & Hstep). simpl in Heq. subst evs'.
    apply list_elem_of_In, list_elem_of_lookup in Hstep as [k Hk].
    destruct (data !! k) as [r|] eqn:Hr.
    + destruct (Hrows k r res evs Hr Hk) as (_ & Hcalls & _).
      destruct (Hcalls j v Hin) as (-> & orig & name & Ho & Hp & Hc).
      exists r, orig, name. rewrite Hc.
      split_and!; try done;
        first [ apply synthesize_spec | apply synthesize_length
              | apply synthesize_prefix ].
    + apply lookup_ge_None in Hr. apply lookup_lt_Some in Hk. lia.
  - intros k res Hk Hok. rewrite Hres, list_lookup_fmap in Hk.
    destruct (steps !! k) as [[res' evs]|] eqn:Hstep; [|done].
    simpl in Hk. simplify_eq.
    destruct (data !! k) as [r|] eqn:Hr.
    + destruct (Hrows k r res evs Hr Hstep) as (_ & _ & Hsucc).
      destruct (Hsucc Hok) as (orig & name & v & Ho & Hp & _ & Hd & _).
      exists r, orig, name. by rewrite Hd, synthesize_spec.
    + apply lookup_ge_None in Hr. apply lookup_lt_Some in Hstep. lia.
Qed.

Lemma discount_code_as_specified_witness :
  codeBySpec asciiUpper (lit "Alice") 1714557600000
  = lit "KICKSTARTER_ALICE_1714557600000"
  /\ exists r orig name,
       [aliceAsSpelled; bob] !! 0 = Some r
       /\ getCell r nameColumn = Some orig
       /\ processedName alwaysSucceeds [] 0 orig = Some name
       /\ code aliceRequest = codeBySpec asciiUpper name 1714557600000
       /\ length (code aliceRequest) <= 50
       /\ firstn 12 (code aliceRequest) = lit "KICKSTARTER_".
Proof.
  split; [reflexivity|].
  apply (proj1 (discount_code_as_specified
                  alwaysSucceeds [aliceAsSpelled; bob] nameColumn priceColumn []
                  (mkReport [aliceSuccess; bobInvalid] (mkSummary 2 1 1))
                  [EvGraphql 0 aliceRequest; EvSleep 600] eq_refl)
               0 aliceRequest).
  simpl. left. reflexivity.
Defined.

(** C9, on the code.  A row whose name cell is empty or absent gets the
    error result with customer "Unknown" only if it has a price cell.  The
    record with an empty name and no price cell, and the record with no cell
    at all, get no result: line 38 throws before line 42 is reached, at any
    position and in any state, and a run that meets such a record after Bob
    rejects, so that Bob's result is lost as well.
    For a row that has a price cell the code does what the claim says: with
    the name cell empty, or absent under a column name that is not an
    inherited member, the iteration appends exactly one result, the error
    "Invalid name or price" with customer "Unknown", counts one more error
    and logs no event; with a name and a price that does not parse, the
    appended result has the row's name as customer. *)
Theorem unknown_customer_needs_price_cell
    (rt : Runtime) (nameCol priceCol tf : jsstring) (i : nat) (r : Row) (st : State) :
  iteration rt nameColumn priceColumn tf i blankNameNoPrice st
  = inl (Uncaught PriceCellUndefined)
  /\ iteration rt nameColumn priceColumn tf i emptyRecord st
     = inl (Uncaught PriceCellUndefined)
  /\ generateDiscountCodes rt [bob; blankNameNoPrice] nameColumn priceColumn tf
     = Rejected PriceCellUndefined
  /\ generateDiscountCodes rt [bob; emptyRecord] nameColumn priceColumn tf
     = Rejected PriceCellUndefined
  /\ (forall cell,
        getCell r priceCol = Some cell ->
        (getCell r nameCol = None /\ inheritedMember nameCol = false)
        \/ getCell r nameCol = Some [] ->
        exists st',
          iteration rt nameCol priceCol tf i r st = inr st'
          /\ stResults st'
             = stResults st ++ [mkResult (Z.of_nat i + 1) (lit "Unknown") error None None
                                         (lit "Invalid name or price")]
          /\ errorCount st' = errorCount st + 1
          /\ successCount st' = successCount st
          /\ events st' = events st)
  /\ (forall name cell,
        getCell r nameCol = Some name -> name <> [] ->
        getCell r priceCol = Some cell ->
        isNaN (parseFloat (replace currencyLiteral [] cell)) = true ->
        exists st',
          iteration rt nameCol priceCol tf i r st = inr st'
          /\ stResults st'
             = stResults st ++ [mkResult (Z.of_nat i + 1) name error None None
                                         (lit "Invalid name or price")]
          /\ errorCount st' = errorCount st + 1
          /\ successCount st' = successCount st
          /\ events st' = events st).
Proof.
  split_and!; try reflexivity.
  - intros cell Hcell Hname.
    rewrite (iteration_name_missing rt nameCol priceCol tf i r st cell Hcell Hname).
    eexists. split; [done|]. unfold errorResult. cbn. split_and!; (done || lia).
  - intros name cell Hname Hne Hcell Hnan.
    rewrite (iteration_price_invalid rt nameCol priceCol tf i r st name cell
               Hname Hne Hcell Hnan).
    eexists. split; [done|]. unfold errorResult. cbn. split_and!; (done || lia).
Qed.

Lemma unknown_customer_needs_price_cell_witness :
  (exists st',
      iteration alwaysSucceeds nameColumn priceColumn [] 0 noName initial = inr st'
      /\ stResults st'
         = [mkResult 1 (lit "Unknown") error None None (lit "Invalid name or price")])
  /\ (exists st',
        iteration alwaysSucceeds nameColumn priceColumn [] 1 bob initial = inr st'
        /\ stResults st' = [bobInvalid]).
Proof.
  split.
  - destruct (unknown_customer_needs_price_cell
                alwaysSucceeds nameColumn priceColumn [] 0 noName initial)
      as (_ & _ & _ & _ & Hblank & _).
    destruct (Hblank (lit "10")) as (st' & Hrun & Hres & _).
    + reflexivity.
    + left. split; reflexivity.
    + exists st'. split; [exact Hrun | exact Hres].
  - destruct (unknown_customer_needs_price_cell
                alwaysSucceeds nameColumn priceColumn [] 1 bob initial)
      as (_ & _ & _ & _ & _ & Hprice).
    destruct (Hprice (lit "Bob") (lit "oops")) as (st' & Hrun & Hres & _).
    + reflexivity.
    + discriminate.
    + reflexivity.
    + reflexivity.
    + exists st'. split; [exact Hrun | exact Hres].
Defined.

(* ===================================================================== *)
(** ** Properties of the exporter *)
(* ===================================================================== *)

(** A row number that no result carries is not in the map. *)
Lemma buildResultMap_unmatched (discountResults : list DiscountResult) (key : Z) :
  (forall res, In res discountResults -> (row res - 1)%Z <> key) ->
  buildResultMap discountResults !! key = None.
Proof.
  unfold buildResultMap.
  assert (Hgen : forall (m : gmap Z DiscountResult),
             m !! key = None ->
             (forall res, In res discountResults -> (row res - 1)%Z <> key) ->
             foldl (fun m result => <[(row result - 1)%Z := result]> m) m
                   discountResults !! key = None).
  { induction discountResults as [|res rest IH]; intros m Hm Hall; simpl; [done|].
    apply IH.
    - rewrite lookup_insert_ne; [done|]. apply Hall. by left.
    - intros res' Hin. apply Hall. by right. }
  intros Hall. by apply Hgen.
Qed.

(** The last result given for a row is the one the map returns. *)
Lemma buildResultMap_last (before : list DiscountResult) (res : DiscountResult) :
  buildResultMap (before ++ [res]) !! (row res - 1)%Z = Some res.
Proof.
  unfold buildResultMap. rewrite foldl_app. simpl. apply lookup_insert_eq.
Qed.

(** Results with pairwise distinct row numbers, as the generator numbers
    them, are all found again, each under its own row. *)
Lemma buildResultMap_distinct (discountResults : list DiscountResult) :
  NoDup (List.map row discountResults) ->
  forall res, In res discountResults ->
    buildResultMap discountResults !! (row res - 1)%Z = Some res.
Proof.
  induction discountResults as [|last before IH] using rev_ind; [done|].
  rewrite List.map_app. simpl. intros Hnd res Hin.
  apply NoDup_app in Hnd as (Hbefore & Hfresh & _).
  apply in_app_or in Hin as [Hin | [<- | []]].
  - unfold buildResultMap. rewrite foldl_app. simpl.
    rewrite lookup_insert_ne.
    + by apply IH.
    + intros Heq. apply (Hfresh (row res)).
      * apply list_elem_of_In, in_map_iff. eauto.
      * apply list_elem_of_In. left. lia.
  - apply buildResultMap_last.
Qed.

Lemma length_originalValues headers r :
  length (originalValues headers r) = length headers.
Proof. unfold originalValues. apply length_map. Qed.

Lemma length_newValues generatedAt result :
  length (newValues generatedAt result) = 5.
Proof. reflexivity. Qed.

Lemma map_join_imap {A} (f : nat -> A -> list jsstring) (l : list A) :
  List.map (join (lit ",")) (imap f l) = imap (fun i x => join (lit ",") (f i x)) l.
Proof.
  apply list_eq. intros i.
  change (List.map (join (lit ",")) (imap f l)) with (join (lit ",") <$> imap f l).
  rewrite list_lookup_fmap, !list_lookup_imap.
  by destruct (l !! i).
Qed.

(** The text of the full merge, as the rows of cells it is joined from. *)
Lemma generateCSVWithCodes_rows clock first rest r0 rs :
  generateCSVWithCodes clock (first :: rest) (r0 :: rs)
  = Csv (join [10%N]
           (join (lit ",") (List.map quoted (keys first ++ addedHeaders))
              :: List.map (join (lit ","))
                   (imap (mergedCells clock (buildResultMap (r0 :: rs)) (keys first))
                         (first :: rest)))).
Proof. unfold generateCSVWithCodes. by rewrite map_join_imap. Qed.

(** The text of the summary, likewise. *)
Lemma generateSummaryCSV_rows clock discountResults :
  generateSummaryCSV clock discountResults
  = join [10%N]
      (join (lit ",") (List.map quoted summaryHeaders)
         :: List.map (join (lit ","))
              (imap (fun i res => summaryCells (clock i) res) discountResults)).
Proof. unfold generateSummaryCSV. by rewrite map_join_imap. Qed.

Lemma amountOrEmpty_zero z :
  isZero z = true -> amountOrEmpty (Some z) = [].
Proof. destruct z as [| |neg [|d ds] p]; try done. Qed.

(* ===================================================================== *)
(** ** Claims about the exporter *)
(* ===================================================================== *)

(** C7, counterexample.  The summary export has no check for empty input:
    given no results it returns the header row by itself.  And the
    successful-only export does fail on a success result, when that result
    has no code. *)
Lemma generateSummaryCSV_empty_returns_header :
  generateSummaryCSV clock0 [] = join (lit ",") (List.map quoted summaryHeaders)
  /\ generateSuccessfulCodesCSV [aliceTier] [successWithoutCode]
     = Throws (Error (lit "No successful discount codes to export")).
Proof. split; reflexivity. Qed.

(** C7, as amended.  The full merge throws
    [Error("No data provided for CSV export")] exactly when there are no input
    rows or no results, and returns text otherwise.  The successful-only
    export throws [Error("No successful discount codes to export")] exactly
    when no result has status success together with a non-empty code, and
    returns text when there is one and there are input rows.  The summary
    export never throws: on no results it returns the header row alone. *)
Theorem export_fails_on_empty_input :
  (forall clock originalData discountResults,
      (generateCSVWithCodes clock originalData discountResults
       = Throws (Error (lit "No data provided for CSV export"))
       <-> originalData = [] \/ discountResults = [])
      /\ (originalData <> [] -> discountResults <> [] ->
          exists text,
            generateCSVWithCodes clock originalData discountResults = Csv text))
  /\ (forall originalData discountResults,
        (generateSuccessfulCodesCSV originalData discountResults
         = Throws (Error (lit "No successful discount codes to export"))
         <-> List.filter isSuccessful discountResults = [])
        /\ (List.filter isSuccessful discountResults <> [] -> originalData <> [] ->
            exists text,
              generateSuccessfulCodesCSV originalData discountResults = Csv text))
  /\ (forall clock,
        generateSummaryCSV clock []
        = join (lit ",") (List.map quoted summaryHeaders)).
Proof.
  split_and!.
  - intros clock originalData discountResults. split; [split|].
    + destruct originalData, discountResults; simpl; intros H; try discriminate; eauto.
    + by intros [-> | ->]; [|destruct originalData].
    + intros Hd Hr. destruct originalData, discountResults; try done. simpl. eauto.
  - intros originalData discountResults. unfold generateSuccessfulCodesCSV.
    destruct (List.filter isSuccessful discountResults) as [|res successful] eqn:Hf.
    + split; [done|]. by intros Hne.
    + split.
      * split; intros H; [|done]. by destruct originalData.
      * intros _ Hd. destruct originalData; [done|]. eauto.
  - reflexivity.
Qed.

Lemma export_fails_on_empty_input_witness :
  generateCSVWithCodes clock0 [aliceTier; bobTier] []
  = Throws (Error (lit "No data provided for CSV export"))
  /\ (exists text, generateCSVWithCodes clock0 [aliceTier; bobTier] [aliceSuccess] = Csv text)
  /\ generateSuccessfulCodesCSV [aliceTier; bobTier] [bobInvalid]
     = Throws (Error (lit "No successful discount codes to export"))
  /\ (exists text, generateSuccessfulCodesCSV [aliceTier; bobTier] [aliceSuccess; bobInvalid]
                   = Csv text).
Proof.
  destruct export_fails_on_empty_input as (Hfull & Hsucc & _).
  split_and!.
  - apply (proj1 (Hfull clock0 [aliceTier; bobTier] [])). right. reflexivity.
  - apply (proj2 (Hfull clock0 [aliceTier; bobTier] [aliceSuccess])); discriminate.
  - apply (proj1 (Hsucc [aliceTier; bobTier] [bobInvalid])). reflexivity.
  - apply (proj2 (Hsucc [aliceTier; bobTier] [aliceSuccess; bobInvalid]));
      discriminate.
Defined.




(* ===================================================================== *)
(** ** Further properties of [generateDiscountCodes] *)
(* ===================================================================== *)

Import Upload ResultsPage Notions.

(** What a state becomes when an iteration pushes [res] and logs [evs]. *)
Lemma tryBlock_detail rt i name price st :
  let v := requestFor rt i name price in
  let dcode := synthesize rt name (Date_now rt i) in
  match tryBlock rt i name dcode price st with
  | Raised e st' =>
      stResults st' = stResults st /\ successCount st' = successCount st
      /\ errorCount st' = errorCount st /\ events st' = events st ++ [EvGraphql i v]
  | Done st' =>
      (exists msg tail,
          (tail = [] \/ tail = [EvSleep 600])
          /\ stResults st' = stResults st ++ [errorResult i name msg]
          /\ successCount st' = successCount st
          /\ errorCount st' = S (errorCount st)
          /\ events st' = events st ++ EvGraphql i v :: tail)
      \/ (stResults st'
          = stResults st
              ++ [mkResult (Z.of_nat i + 1) name success (Some dcode) (Some price)
                           (lit "Discount code created successfully")]
          /\ successCount st' = S (successCount st)
          /\ errorCount st' = errorCount st
          /\ events st' = events st ++ [EvGraphql i v; EvSleep 600])
  end.
Proof.
  intros v dcode. unfold tryBlock. fold v.
  repeat case_match; simplify_eq;
    cbn [stResults events push incErrors incSuccess emit successCount errorCount];
    rewrite <- ?app_assoc; cbn [app];
    first [ done
          | by right
          | left; eexists _, _; split; [|done]; eauto ].
Qed.

Lemma iteration_detail rt nameCol priceCol tf i r st st' :
  iteration rt nameCol priceCol tf i r st = inr st' ->
  exists res evs,
    stResults st' = stResults st ++ [res]
    /\ events st' = events st ++ evs
    /\ RowDetail rt nameCol priceCol tf i r res evs.
Proof.
  unfold iteration. intros H.
  destruct (getCell r priceCol) as [cell|] eqn:Hcell; [|done].
  fold (priceOf cell) in H.
  destruct (getCell r nameCol) as [[|c name]|] eqn:Hname.
  3: destruct (inheritedMember nameCol); [by repeat case_match|].
  1,3: simplify_eq; eexists _, []; rewrite app_nil_r;
       split_and!; [done..|]; eapply NameMissing; eauto.
  set (orig := c :: name) in *.
  assert (Horig : orig <> []) by done.
  destruct (isNaN (priceOf cell)) eqn:Hnan.
  { simplify_eq. eexists _, []. rewrite app_nil_r.
    split_and!; [done..|]. by eapply PriceInvalid. }
  destruct (if transformConfigured tf then _ else _) as [[s|]|e] eqn:Htr; [| done |].
  - assert (Hp : processedName rt tf i orig = Some s).
    { unfold processedName. destruct (transformConfigured tf); [by rewrite Htr|].
      by simplify_eq. }
    pose proof (tryBlock_detail rt i s (priceOf cell) st) as Hd. simpl in Hd.
    destruct (tryBlock _ _ _ _ _ _) as [st1|e st1].
    + simplify_eq.
      destruct Hd as [(msg & tail & Htail & Hres & _ & _ & Hev) | (Hres & _ & _ & Hev)].
      * eexists _, _. split_and!; [done..|]. by eapply CallFailed.
      * eexists _, _. split_and!; [done..|]. by eapply Created.
    + destruct Hd as (Hres & _ & _ & Hev).
      destruct (errorMessage e) as [m|]; [|done]. simplify_eq.
      eexists _, [EvGraphql i _]. cbn. rewrite Hres, Hev.
      split_and!; [done..|]. eapply CallFailed; eauto.
  - destruct (transformConfigured tf) eqn:Hconf; [|done].
    destruct e as [|m|]; [done| |done]. simpl in H. simplify_eq.
    eexists _, []. rewrite app_nil_r.
    split_and!; [done..|]. by eapply TransformThrew.
Qed.

Lemma loop_detail rt nameCol priceCol tf rows : forall i st st',
  loop rt nameCol priceCol tf i rows st = inr st' ->
  exists steps : list (DiscountResult * list Event),
    length steps = length rows
    /\ stResults st' = stResults st ++ List.map fst steps
    /\ events st' = events st ++ concat (List.map snd steps)
    /\ (forall k r res evs,
          rows !! k = Some r -> steps !! k = Some (res, evs) ->
          RowDetail rt nameCol priceCol tf (i + k) r res evs).
Proof.
  induction rows as [|r rest IH]; intros i st st' H.
  - simpl in H. simplify_eq. exists []. simpl. rewrite !app_nil_r. split_and!; done.
  - apply loop_cons_completes in H as (st1 & Hstep & H).
    apply iteration_detail in Hstep as (res & evs & Hres1 & Hev1 & Hdetail).
    apply IH in H as (steps & Hlen & Hres & Hev & Hrows).
    exists ((res, evs) :: steps). simpl.
    rewrite Hres, Hres1, Hev, Hev1, <- !app_assoc. simpl.
    split_and!; try done.
    + by rewrite Hlen.
    + intros [|k] r' res' evs' Hk Hk'; simpl in Hk, Hk'.
      * simplify_eq. by rewrite Nat.add_0_r.
      * replace (i + S k) with (S i + k) by lia. by eapply Hrows.
Qed.

(** A run that resolves, row by row. *)
Lemma run_detail rt data nameCol priceCol tf report log :
  generateDiscountCodes rt data nameCol priceCol tf = Resolved report log ->
  exists steps : list (DiscountResult * list Event),
    length steps = length data
    /\ results report = List.map fst steps
    /\ log = concat (List.map snd steps)
    /\ (forall k r res evs,
          data !! k = Some r -> steps !! k = Some (res, evs) ->
          RowDetail rt nameCol priceCol tf k r res evs).
Proof.
  unfold generateDiscountCodes. intros H.
  destruct (loop _ _ _ _ _ _ _) as [a|st] eqn:Hloop; [by destruct a|].
  apply loop_detail in Hloop as (steps & Hlen & Hres & Hev & Hrows).
  simpl in Hres, Hev. simplify_eq. simpl. exists steps. by rewrite Hres.
Qed.


(** The row at a position, with the result it produced and its events. *)
Lemma run_row rt data nameCol priceCol tf report log k r :
  generateDiscountCodes rt data nameCol priceCol tf = Resolved report log ->
  data !! k = Some r ->
  exists res evs,
    results report !! k = Some res
    /\ RowDetail rt nameCol priceCol tf k r res evs
    /\ (forall ev, In ev evs -> In ev log).
Proof.
  intros H Hr.
  apply run_detail in H as (steps & Hlen & Hres & Hlog & Hrows).
  destruct (steps !! k) as [[res evs]|] eqn:Hstep.
  - exists res, evs. split_and!.
    + by rewrite Hres, list_lookup_fmap, Hstep.
    + by eapply Hrows.
    + intros ev Hin. rewrite Hlog. apply in_concat. exists evs. split; [|done].
      apply in_map_iff. exists (res, evs). split; [done|].
      apply list_elem_of_In, list_elem_of_lookup. eauto.
  - apply lookup_ge_None in Hstep. apply lookup_lt_Some in Hr. lia.
Qed.

Lemma run_result rt data nameCol priceCol tf report log k res :
  generateDiscountCodes rt data nameCol priceCol tf = Resolved report log ->
  results report !! k = Some res ->
  exists r evs,
    data !! k = Some r
    /\ RowDetail rt nameCol priceCol tf k r res evs
    /\ (forall ev, In ev evs -> In ev log).
Proof.
  intros H Hres.
  destruct (data !! k) as [r|] eqn:Hr.
  - destruct (run_row _ _ _ _ _ _ _ _ _ H Hr) as (res' & evs & Hres' & Hd & Hin).
    simplify_eq. eauto.
  - apply run_detail in H as (steps & Hlen & Heq & _).
    apply lookup_ge_None in Hr. apply lookup_lt_Some in Hres.
    rewrite Heq, length_map in Hres. lia.
Qed.

Lemma RowDetail_events rt nameCol priceCol tf i r res evs :
  RowDetail rt nameCol priceCol tf i r res evs ->
  evs = [] \/ exists v, evs = [EvGraphql i v] \/ evs = [EvGraphql i v; EvSleep 600].
Proof.
  intros [| | |? ? ? ? ? ? ? ? ? ? [-> | ->]|]; eauto.
Qed.




Lemma concat_groups_count {A} (f : A -> bool) (groups : list (list A)) (n : nat) :
  Forall (fun g => length (List.filter f g) <= n) groups ->
  length (List.filter f (concat groups)) <= n * length groups.
Proof.
  induction 1 as [|g groups Hg _ IH]; simpl; [lia|].
  rewrite List.filter_app, length_app. lia.
Qed.

Lemma concat_groups_le {A} (f g : A -> bool) (groups : list (list A)) :
  Forall (fun x => length (List.filter f x) <= length (List.filter g x)) groups ->
  length (List.filter f (concat groups)) <= length (List.filter g (concat groups)).
Proof.
  induction 1 as [|x groups Hx _ IH]; simpl; [done|].
  rewrite !List.filter_app, !length_app. lia.
Qed.

(** X2.  The log of a run that resolves falls into one group per row, in row
    order, and each group is empty, or the call for that row, or that call
    followed by the delay of 600 ms: at most one call per row, in row order,
    and a delay only straight after a call. *)
Theorem log_is_grouped_by_row
    (rt : Runtime) (data : list Row) (nameCol priceCol tf : jsstring)
    (report : Report) (log : list Event) :
  generateDiscountCodes rt data nameCol priceCol tf = Resolved report log ->
  exists groups : list (list Event),
    length groups = length data
    /\ log = concat groups
    /\ (forall k g, groups !! k = Some g ->
          g = [] \/ exists v, g = [EvGraphql k v] \/ g = [EvGraphql k v; EvSleep 600])
    /\ length (List.filter isSleep log) <= length (List.filter isCall log)
    /\ length (List.filter isCall log) <= length data.
Proof.
  intros H.
  apply run_detail in H as (steps & Hlen & Hres & Hlog & Hrows).
  assert (Hgroups : forall k g, List.map snd steps !! k = Some g ->
             g = [] \/ exists v, g = [EvGraphql k v] \/ g = [EvGraphql k v; EvSleep 600]).
  { intros k g Hg.
    change (List.map snd steps) with (snd <$> steps) in Hg.
    rewrite list_lookup_fmap in Hg.
    destruct (steps !! k) as [[res evs]|] eqn:Hstep; [|done]. simpl in Hg. simplify_eq.
    destruct (data !! k) as [r|] eqn:Hr.
    - eapply RowDetail_events. by eapply Hrows.
    - apply lookup_ge_None in Hr. apply lookup_lt_Some in Hstep. lia. }
  exists (List.map snd steps). split_and!; try done.
  - by rewrite length_map.
  - rewrite Hlog. apply concat_groups_le. apply Forall_lookup. intros k g Hg.
    destruct (Hgroups k g Hg) as [-> | (v & [-> | ->])]; simpl; lia.
  - rewrite Hlog, <- Hlen, <- (length_map snd steps).
    replace (length (List.map snd steps)) with (1 * length (List.map snd steps)) by lia.
    apply concat_groups_count. apply Forall_lookup. intros k g Hg.
    destruct (Hgroups k g Hg) as [-> | (v & [-> | ->])]; simpl; lia.
Qed.

Lemma log_is_grouped_by_row_witness :
  exists groups : list (list Event),
    length groups = 2
    /\ [EvGraphql 0 aliceRequest; EvSleep 600] = concat groups
    /\ (forall k g, groups !! k = Some g ->
          g = [] \/ exists v, g = [EvGraphql k v] \/ g = [EvGraphql k v; EvSleep 600]).
Proof.
  destruct (log_is_grouped_by_row
              alwaysSucceeds [alicePlain; bob] nameColumn priceColumn []
              (mkReport [aliceSuccess; bobInvalid] (mkSummary 2 1 1))
              [EvGraphql 0 aliceRequest; EvSleep 600] eq_refl)
    as (groups & Hlen & Hlog & Hshape & _).
  exists groups. split_and!; [exact Hlen | exact Hlog | exact Hshape].
Defined.



Lemma synthesize_nonempty rt name millis : synthesize rt name millis <> [].
Proof.
  intros Heq. pose proof (synthesize_prefix rt name millis) as Hp.
  by rewrite Heq in Hp.
Qed.

Lemma RowDetail_status rt nameCol priceCol tf i r res evs :
  RowDetail rt nameCol priceCol tf i r res evs ->
  (status res = error /\ discountCode res = None /\ amount res = None)
  \/ (status res = success /\ isSuccessful res = true
      /\ exists x, amount res = Some x /\ isNaN x = false).
Proof.
  intros [| | | |cell orig name Hc Hn Hne Hnan Hp]; [by left..|].
  right. split_and!; [done| |by eauto].
  unfold isSuccessful. simpl.
  by destruct (synthesize rt name (Date_now rt i)) eqn:Hs;
    [apply synthesize_nonempty in Hs|].
Qed.

(** X4.  In the report of a run that resolves, a result carries a discount
    code and an amount exactly when its status is success: an error result
    has neither, a success result has a non-empty code and an amount that is
    a number. *)
Theorem code_and_amount_iff_success
    (rt : Runtime) (data : list Row) (nameCol priceCol tf : jsstring)
    (report : Report) (log : list Event) (res : DiscountResult) :
  generateDiscountCodes rt data nameCol priceCol tf = Resolved report log ->
  In res (results report) ->
  (status res = error -> discountCode res = None /\ amount res = None)
  /\ (status res = success ->
        (exists c cs, discountCode res = Some (c :: cs))
        /\ exists x, amount res = Some x /\ isNaN x = false).
Proof.
  intros H Hin.
  apply list_elem_of_In, list_elem_of_lookup in Hin as [k Hk].
  destruct (run_result _ _ _ _ _ _ _ _ _ H Hk) as (r & evs & _ & Hd & _).
  destruct (RowDetail_status _ _ _ _ _ _ _ _ Hd)
    as [(Hs & Hc & Ha) | (Hs & Hsucc & Ha)].
  - split; [done|]. by rewrite Hs.
  - split; [by rewrite Hs|]. intros _. split; [|done].
    unfold isSuccessful in Hsucc. rewrite Hs in Hsucc.
    destruct (discountCode res) as [[|c cs]|]; try done. eauto.
Qed.

Lemma code_and_amount_iff_success_witness :
  (status bobInvalid = error -> discountCode bobInvalid = None /\ amount bobInvalid = None)
  /\ (status bobInvalid = success ->
        (exists c cs, discountCode bobInvalid = Some (c :: cs))
        /\ exists x, amount bobInvalid = Some x /\ isNaN x = false).
Proof.
  apply (code_and_amount_iff_success
           alwaysSucceeds [alicePlain; bob] nameColumn priceColumn []
           (mkReport [aliceSuccess; bobInvalid] (mkSummary 2 1 1))
           [EvGraphql 0 aliceRequest; EvSleep 600] bobInvalid eq_refl).
  simpl. right. left. reflexivity.
Defined.

(** X5.  A transform function that is empty or consists of white space only
    is not run at all: the run is the one without a transform, whatever the
    snippet evaluator would do. *)
Theorem blank_transform_is_not_run
    (upper : jsstring -> jsstring) (now : nat -> Z) (iso : nat -> jsstring)
    (snippet snippet' : nat -> jsstring -> jsstring -> Completion SnippetValue)
    (remote : nat -> DiscountCodeBasicInput -> Completion Response)
    (parse : jsstring -> option Body)
    (data : list Row) (nameCol priceCol tf : jsstring) :
  trim tf = [] ->
  generateDiscountCodes (mkRuntime upper now iso snippet remote parse)
                        data nameCol priceCol tf
  = generateDiscountCodes (mkRuntime upper now iso snippet' remote parse)
                          data nameCol priceCol [].
Proof.
  intros Htrim.
  assert (Hconf : transformConfigured tf = false).
  { unfold transformConfigured. rewrite Htrim. by destruct tf. }
  unfold generateDiscountCodes.
  assert (Hloop : forall rows i st,
             loop (mkRuntime upper now iso snippet remote parse) nameCol priceCol tf
                  i rows st
             = loop (mkRuntime upper now iso snippet' remote parse) nameCol priceCol []
                    i rows st).
  { induction rows as [|r rest IH]; intros i st; cbn [loop]; [done|].
    assert (Hiter : iteration (mkRuntime upper now iso snippet remote parse)
                              nameCol priceCol tf i r st
                    = iteration (mkRuntime upper now iso snippet' remote parse)
                                nameCol priceCol [] i r st).
    { unfold iteration. rewrite Hconf. reflexivity. }
    rewrite Hiter. clear Hiter.
    destruct (iteration _ _ _ _ _ _ _) as [[a| |]|st1]; rewrite ?IH; done. }
  by rewrite Hloop.
Qed.

Lemma blank_transform_is_not_run_witness :
  generateDiscountCodes snippetThrows [alicePlain; bob] nameColumn priceColumn
                        (lit "   ")
  = generateDiscountCodes alwaysSucceeds [alicePlain; bob] nameColumn priceColumn [].
Proof.
  apply (blank_transform_is_not_run asciiUpper). reflexivity.
Defined.

(** Line 38 throws in the row without a price cell, or an earlier row has
    thrown already. *)
Lemma loop_price_cell_missing rt nameCol priceCol tf rows r : forall i st,
  In r rows -> getCell r priceCol = None ->
  exists a, loop rt nameCol priceCol tf i rows st = inl (Uncaught a).
Proof.
  induction rows as [|r' rest IH]; intros i st Hin Hnone; [done|].
  cbn [loop]. destruct Hin as [-> | Hin].
  - rewrite (iteration_price_cell_missing rt nameCol priceCol tf i r st Hnone). eauto.
  - destruct (iteration _ _ _ _ _ _ _) as [[a| |]|st1]; [by eauto| | |by apply IH].
    all: destruct (IH (S i) st Hin Hnone) as [a ->]; cbn; eauto.
Qed.

(** X6.  One record without a price cell, anywhere in the input, makes the
    whole run reject: no report is returned, also not for the rows before
    it. *)
Theorem record_without_price_cell_rejects_run
    (rt : Runtime) (data : list Row) (nameCol priceCol tf : jsstring) (r : Row) :
  In r data -> getCell r priceCol = None ->
  exists a, generateDiscountCodes rt data nameCol priceCol tf = Rejected a.
Proof.
  intros Hin Hnone. unfold generateDiscountCodes.
  destruct (loop_price_cell_missing rt nameCol priceCol tf data r 0 initial Hin Hnone)
    as [a ->].
  eauto.
Qed.

Lemma record_without_price_cell_rejects_run_witness :
  exists a,
    generateDiscountCodes alwaysSucceeds [alicePlain; bob; carolNoPrice]
                          nameColumn priceColumn [] = Rejected a.
Proof.
  apply (record_without_price_cell_rejects_run
           alwaysSucceeds [alicePlain; bob; carolNoPrice] nameColumn priceColumn []
           carolNoPrice).
  - simpl. right. right. left. reflexivity.
  - reflexivity.
Defined.

Lemma loop_app rt nameCol priceCol tf rows more : forall i st st2,
  loop rt nameCol priceCol tf i (rows ++ more) st = inr st2 ->
  exists st1,
    loop rt nameCol priceCol tf i rows st = inr st1
    /\ loop rt nameCol priceCol tf (i + length rows) more st1 = inr st2.
Proof.
  induction rows as [|r rest IH]; intros i st st2 H.
  - simpl in *. rewrite Nat.add_0_r. eauto.
  - rewrite <- app_comm_cons in H.
    apply loop_cons_completes in H as (st' & Hstep & H).
    apply IH in H as (st1 & Hrest & Hmore).
    exists st1. cbn [loop]. rewrite Hstep. split; [done|].
    by replace (i + length (r :: rest)) with (S i + length rest) by (simpl; lia).
Qed.

(** X7.  What the run does for a row does not depend on the rows after it:
    if the run over [data ++ more] resolves, so does the run over [data],
    with the first length(data) results and with a log that the longer run
    extends. *)
Theorem earlier_rows_ignore_later_rows
    (rt : Runtime) (data more : list Row) (nameCol priceCol tf : jsstring)
    (report : Report) (log : list Event) :
  generateDiscountCodes rt (data ++ more) nameCol priceCol tf = Resolved report log ->
  exists report' log' rest,
    generateDiscountCodes rt data nameCol priceCol tf = Resolved report' log'
    /\ results report' = firstn (length data) (results report)
    /\ log = log' ++ rest.
Proof.
  unfold generateDiscountCodes. intros H.
  destruct (loop rt nameCol priceCol tf 0 (data ++ more) initial) as [a|st2] eqn:H0;
    [by destruct a|].
  apply loop_app in H0 as (st1 & H1 & H2). rewrite H1.
  simplify_eq.
  apply loop_detail in H1 as (steps1 & Hlen1 & Hres1 & _).
  apply loop_detail in H2 as (steps2 & _ & Hres2 & Hev2 & _).
  simpl in Hres1. eexists _, _, _. split; [reflexivity|]. simpl. split.
  - rewrite Hres2, Hres1, <- Hlen1, <- (length_map fst steps1).
    by rewrite firstn_app, Nat.sub_diag, firstn_all, firstn_O, app_nil_r.
  - exact Hev2.
Qed.

Lemma earlier_rows_ignore_later_rows_witness :
  exists report' log' rest,
    generateDiscountCodes alwaysSucceeds [alicePlain] nameColumn priceColumn []
    = Resolved report' log'
    /\ results report' = firstn 1 [aliceSuccess; bobInvalid]
    /\ [EvGraphql 0 aliceRequest; EvSleep 600] = log' ++ rest.
Proof.
  apply (earlier_rows_ignore_later_rows
           alwaysSucceeds [alicePlain] [bob] nameColumn priceColumn []
           (mkReport [aliceSuccess; bobInvalid] (mkSummary 2 1 1))
           [EvGraphql 0 aliceRequest; EvSleep 600]).
  reflexivity.
Defined.

(** *** The synthesised code *)

Lemma forallb_firstn {A} (f : A -> bool) (n : nat) (l : list A) :
  forallb f l = true -> forallb f (firstn n l) = true.
Proof.
  revert n. induction l as [|x l IH]; intros [|n]; simpl; try done.
  rewrite !andb_true_iff. intros [Hx Hl]. auto.
Qed.

Lemma uintUnits_digits (d : Decimal.uint) : forallb isDigit (uintUnits d) = true.
Proof. induction d; simpl; done. Qed.

Lemma uintUnits_inj (a b : Decimal.uint) : uintUnits a = uintUnits b -> a = b.
Proof.
  revert b. induction a; intros []; simpl; intros H; try discriminate;
    try done; injection H as H; f_equal; auto.
Qed.

Lemma natString_inj (a b : N) : natString a = natString b -> a = b.
Proof.
  unfold natString. intros H. apply uintUnits_inj in H.
  by rewrite <- (DecimalN.Unsigned.of_to a), <- (DecimalN.Unsigned.of_to b), H.
Qed.

Lemma natString_digits (n : N) : forallb isDigit (natString n) = true.
Proof. apply uintUnits_digits. Qed.

Lemma intString_inj (a b : Z) : intString a = intString b -> a = b.
Proof.
  assert (Hhead : forall n rest, natString n <> (45%N :: rest)).
  { intros n rest Heq. pose proof (natString_digits n) as Hd.
    rewrite Heq in Hd. done. }
  destruct a as [|p|p], b as [|q|q]; unfold intString;
    change (lit "-") with [45%N]; change (lit "0") with (natString 0); cbn [app];
    intros H; try done;
    try (by apply Hhead in H); try (by apply eq_sym, Hhead in H);
    try (injection H as H); apply natString_inj in H; by simplify_eq.
Qed.

Lemma intString_codeUnits (z : Z) : forallb codeUnit (intString z) = true.
Proof.
  assert (Hnat : forall n, forallb codeUnit (natString n) = true).
  { intros n. pose proof (natString_digits n) as Hd.
    apply forallb_forall. intros c Hc.
    apply (proj1 (forallb_forall _ _) Hd) in Hc.
    unfold codeUnit. rewrite Hc. by rewrite orb_true_r. }
  destruct z; simpl; [done | apply Hnat |]. apply Hnat.
Qed.

(** X8.  A synthesised code is made of capital letters, digits, underscores
    and (for a time value before 1970) the minus sign only, whatever the
    name and whatever [toUpperCase] returns: in particular it holds no
    quote, comma or line break. *)
Theorem synthesized_code_alphabet (rt : Runtime) (name : jsstring) (millis : Z) :
  forallb codeUnit (synthesize rt name millis) = true
  /\ quoteFree (synthesize rt name millis) = true.
Proof.
  assert (Hcode : forallb codeUnit (synthesize rt name millis) = true).
  { unfold synthesize, substring0. apply forallb_firstn.
    rewrite !forallb_app. rewrite intString_codeUnits.
    assert (Hclean : forallb codeUnit (replaceNonAZ09 (toUpperCase rt name)) = true).
    { unfold replaceNonAZ09. apply forallb_forall. intros c Hc.
      apply in_map_iff in Hc as (c0 & <- & _).
      destruct (isUpperAZ c0) eqn:Hu, (isDigit c0) eqn:Hd; simpl;
        unfold codeUnit; rewrite ?Hu, ?Hd; done. }
    by rewrite Hclean. }
  split; [done|].
  unfold quoteFree. apply forallb_forall. intros c Hc.
  apply (proj1 (forallb_forall _ _) Hcode) in Hc.
  destruct (N.eqb_spec c 34) as [-> |]; done.
Qed.

Lemma length_campaignTag : length campaignTag = 12.
Proof. reflexivity. Qed.

(** X9.  When the upper-cased name has 38 code units or more, the cut at 50
    removes the whole time value: the code is the campaign tag and the first
    38 cleaned units of the name, the same at every time. *)
Theorem long_name_code_has_no_time
    (rt : Runtime) (name : jsstring) (millis millis' : Z) :
  38 <= length (toUpperCase rt name) ->
  synthesize rt name millis
  = campaignTag ++ firstn 38 (replaceNonAZ09 (toUpperCase rt name))
  /\ synthesize rt name millis = synthesize rt name millis'.
Proof.
  intros Hlen.
  assert (Hform : forall t,
             synthesize rt name t
             = campaignTag ++ firstn 38 (replaceNonAZ09 (toUpperCase rt name))).
  { intros t. unfold synthesize, substring0.
    rewrite firstn_app, length_campaignTag.
    rewrite (firstn_all2 campaignTag) by (rewrite length_campaignTag; lia).
    f_equal. change (50 - 12) with 38.
    rewrite firstn_app.
    replace (38 - length (replaceNonAZ09 (toUpperCase rt name))) with 0
      by (unfold replaceNonAZ09; rewrite length_map; lia).
    by rewrite firstn_O, app_nil_r. }
  split; [apply Hform|]. by rewrite !Hform.
Qed.

Lemma long_name_code_has_no_time_witness :
  synthesize alwaysSucceeds longName 1714557600000
  = campaignTag ++ firstn 38 (replaceNonAZ09 (asciiUpper longName))
  /\ synthesize alwaysSucceeds longName 1714557600000
     = synthesize alwaysSucceeds longName 1714557600001.
Proof.
  apply (long_name_code_has_no_time alwaysSucceeds longName). vm_compute. lia.
Defined.

(** X10.  When the upper-cased name and the printed time value together have
    at most 37 code units, nothing is cut: the code ends with the time value,
    and two codes for the same name made at different times differ. *)
Theorem short_name_code_keeps_time
    (rt : Runtime) (name : jsstring) (millis millis' : Z) :
  length (toUpperCase rt name) + length (intString millis) <= 37 ->
  length (toUpperCase rt name) + length (intString millis') <= 37 ->
  synthesize rt name millis
  = campaignTag ++ replaceNonAZ09 (toUpperCase rt name) ++ lit "_" ++ intString millis
  /\ (millis <> millis' -> synthesize rt name millis <> synthesize rt name millis').
Proof.
  intros Hlen Hlen'.
  assert (Hform : forall t,
             length (toUpperCase rt name) + length (intString t) <= 37 ->
             synthesize rt name t
             = campaignTag ++ replaceNonAZ09 (toUpperCase rt name)
                 ++ lit "_" ++ intString t).
  { intros t Ht. unfold synthesize, substring0. apply firstn_all2.
    rewrite !length_app, length_campaignTag. unfold replaceNonAZ09.
    rewrite length_map. change (length (lit "_")) with 1. lia. }
  split; [by apply Hform|].
  intros Hne Heq. rewrite !Hform in Heq by done.
  do 3 apply app_inv_head in Heq. by apply intString_inj in Heq.
Qed.

Lemma short_name_code_keeps_time_witness :
  synthesize alwaysSucceeds (lit "Alice") 1714557600000
  = lit "KICKSTARTER_ALICE_1714557600000"
  /\ synthesize alwaysSucceeds (lit "Alice") 1714557600000
     <> synthesize alwaysSucceeds (lit "Alice") 1714557600001.
Proof.
  destruct (short_name_code_keeps_time
              alwaysSucceeds (lit "Alice") 1714557600000 1714557600001)
    as [Hform Hdiff]; try (vm_compute; lia).
  split; [exact Hform | apply Hdiff; discriminate].
Defined.

(* ===================================================================== *)
(** ** Further properties of the exporter *)
(* ===================================================================== *)

(** X11.  The map built from the results returns, for a zero-based row, the
    last result of the list that carries that row (as its 1-based [row]), and
    nothing when no result does: a later duplicate replaces an earlier one. *)
Theorem buildResultMap_returns_last (discountResults : list DiscountResult) (key : Z) :
  buildResultMap discountResults !! key = lastForRow key discountResults.
Proof.
  unfold lastForRow.
  induction discountResults as [|res before IH] using rev_ind; [done|].
  unfold buildResultMap in *. rewrite foldl_app, List.filter_app. simpl.
  destruct (Z.eqb_spec (row res - 1) key) as [-> | Hne].
  - by rewrite lookup_insert_eq, last_snoc.
  - by rewrite lookup_insert_ne, app_nil_r.
Qed.











(** X14.  The successful-only export reads the keys of the first row without
    checking that there is one: with no input rows it throws a [TypeError]
    exactly when some result is a success with a code, instead of reporting
    the missing data as the full merge does. *)
Theorem successful_export_without_rows
    (originalData : list Row) (discountResults : list DiscountResult) :
  generateSuccessfulCodesCSV originalData discountResults = Throws TypeError
  <-> originalData = [] /\ List.filter isSuccessful discountResults <> [].
Proof.
  unfold generateSuccessfulCodesCSV.
  destruct (List.filter isSuccessful discountResults) as [|s ss], originalData;
    split; try done; by intros [? ?].
Qed.

Lemma successful_export_without_rows_witness :
  generateSuccessfulCodesCSV [] [aliceSuccess; bobInvalid] = Throws TypeError
  /\ generateCSVWithCodes clock0 [] [aliceSuccess; bobInvalid]
     = Throws (Error (lit "No data provided for CSV export")).
Proof.
  split; [|reflexivity].
  apply (proj2 (successful_export_without_rows [] [aliceSuccess; bobInvalid])).
  split; [reflexivity | discriminate].
Defined.

(** X15.  The successful-only export prints the amount as it is: a success
    whose amount is 0 gets the cell "0", and one without an amount the cell
    "undefined", where the full merge and the summary leave the cell empty. *)
Theorem successful_row_prints_zero_amount
    (resultMap : gmap Z DiscountResult) (headers : list jsstring) (index : nat)
    (r : Row) (result : DiscountResult) :
  resultMap !! Z.of_nat index = Some result -> status result = success ->
  (forall z, amount result = Some z -> isZero z = true ->
     successfulRow resultMap headers index r
     = Some (join (lit ",")
               (originalValues headers r
                  ++ [quoted (template (discountCode result)); quoted (lit "0")]))
     /\ amountOrEmpty (amount result) = [])
  /\ (amount result = None ->
        successfulRow resultMap headers index r
        = Some (join (lit ",")
                  (originalValues headers r
                     ++ [quoted (template (discountCode result));
                         quoted (lit "undefined")]))).
Proof.
  intros Hres Hok. unfold successfulRow. rewrite Hres, Hok. split.
  - intros z Ha Hz. rewrite Ha. by destruct z as [| |neg [|d ds] p].
  - by intros ->.
Qed.

Lemma successful_row_prints_zero_amount_witness :
  generateSuccessfulCodesCSV [danaTier] [freeOfCharge]
  = Csv (join [10%N]
           [ join (lit ",")
               (List.map quoted
                  (keys danaTier ++ [lit "Discount_Code"; lit "Discount_Amount"]));
             join (lit ",")
               (List.map quoted
                  [lit "Dana"; lit "0"; lit "Free"; lit "KICKSTARTER_DANA_1"; lit "0"]) ])
  /\ successfulRow (buildResultMap [freeOfCharge]) (keys danaTier) 0 danaTier
     = Some (join (lit ",")
               (originalValues (keys danaTier) danaTier
                  ++ [quoted (template (discountCode freeOfCharge)); quoted (lit "0")])).
Proof.
  split; [reflexivity|].
  apply (proj1 (successful_row_prints_zero_amount
                  (buildResultMap [freeOfCharge]) (keys danaTier) 0 danaTier
                  freeOfCharge eq_refl eq_refl) zero eq_refl eq_refl).
Defined.

(** *** Reading back what the summary writes *)

Lemma readCells_cell (s : jsstring) : forall cell cells rest,
  readCells InCell cell cells (escapeQuotes s ++ 34%N :: rest)
  = readCells AfterQuote (cell ++ s) cells rest.
Proof.
  unfold escapeQuotes.
  induction s as [|c s IH]; intros cell cells rest; simpl.
  - by rewrite app_nil_r.
  - destruct (N.eqb_spec c 34) as [-> | Hne]; simpl.
    + rewrite IH. by rewrite <- app_assoc.
    + rewrite (proj2 (N.eqb_neq c 34) Hne), IH. by rewrite <- app_assoc.
Qed.

Lemma readCells_line (xs : list jsstring) : forall st cells,
  st = AtStart \/ st = AfterComma -> xs <> [] ->
  readCells st [] cells
            (join (lit ",") (List.map (fun v => quoted (escapeQuotes v)) xs))
  = Some (cells ++ xs).
Proof.
  induction xs as [|x xs IH]; intros st cells Hst Hne; [done|].
  assert (Hopen : forall rest,
             readCells st [] cells (34%N :: rest) = readCells InCell [] cells rest).
  { intros rest. by destruct Hst as [-> | ->]. }
  destruct xs as [|y ys].
  - change (join (lit ",") (List.map (fun v => quoted (escapeQuotes v)) [x]))
      with (34%N :: escapeQuotes x ++ [34%N]).
    by rewrite Hopen, readCells_cell.
  - change (join (lit ",") (List.map (fun v => quoted (escapeQuotes v)) (x :: y :: ys)))
      with (34%N :: (escapeQuotes x ++ [34%N])
              ++ 44%N :: join (lit ",")
                   (List.map (fun v => quoted (escapeQuotes v)) (y :: ys))).
    rewrite Hopen, <- app_assoc. cbn [app]. rewrite readCells_cell.
    cbn [readCells]. change (44 =? 34)%N with false. change (44 =? 44)%N with true.
    cbv iota. rewrite IH; [|by right|done]. by rewrite <- app_assoc.
Qed.

(** Cells written in quotes with their quotes doubled, and joined by commas,
    can be told apart again. *)
Lemma escaped_cells_injective (xs ys : list jsstring) :
  join (lit ",") (List.map (fun v => quoted (escapeQuotes v)) xs)
  = join (lit ",") (List.map (fun v => quoted (escapeQuotes v)) ys) ->
  xs = ys.
Proof.
  intros Heq.
  assert (Hread : forall zs,
             readCells AtStart [] []
               (join (lit ",") (List.map (fun v => quoted (escapeQuotes v)) zs))
             = Some zs).
  { intros [|z zs]; [done|]. rewrite readCells_line; [done|by left|done]. }
  pose proof (Hread xs) as Hx. rewrite Heq, Hread in Hx. by simplify_eq.
Qed.

Lemma statusString_inj (a b : Status) : statusString a = statusString b -> a = b.
Proof. by destruct a, b. Qed.

(** C10.  A result whose amount is 0 is written with an empty cell (a pair of
    quotes with nothing between them) in the [Discount_Amount] column by both
    exports.
    Full merge: the text is the header line followed by one line per record,
    and the line of the record that the map matches with this result is made
    of the record's own cells followed by exactly five cells: the code, the
    empty cell, the status, the message and the time stamp.  The record's own
    cells are as many as the headers, so the empty cell stands in the column
    headed [Discount_Amount].
    Summary: the text is the header line followed by one line per result,
    and the line of this result is made of its seven cells, quoted and
    escaped, the fourth of which is empty; read back as a line of quoted
    cells, the line gives these seven values again, the empty string under
    the fourth header, [Discount_Amount]. *)
Theorem zero_amount_is_exported_empty
    (clock : nat -> jsstring) (result : DiscountResult) (z : number) (index : nat) :
  amount result = Some z -> isZero z = true ->
  (forall first rest r0 rs r,
      (first :: rest) !! index = Some r ->
      buildResultMap (r0 :: rs) !! Z.of_nat index = Some result ->
      let headers := keys first in
      let lines :=
        imap (fun k r' =>
                join (lit ",")
                     (mergedCells clock (buildResultMap (r0 :: rs)) headers k r'))
             (first :: rest) in
      generateCSVWithCodes clock (first :: rest) (r0 :: rs)
      = Csv (join [10%N]
               (join (lit ",") (List.map quoted (headers ++ addedHeaders)) :: lines))
      /\ (headers ++ addedHeaders) !! (length headers + 1)
         = Some (lit "Discount_Amount")
      /\ length (originalValues headers r) = length headers
      /\ lines !! index
         = Some (join (lit ",")
                   (originalValues headers r
                    ++ [ quoted (orEmpty (discountCode result));
                         quoted [];
                         quoted (statusString (status result));
                         quoted (escapeQuotes
                                   (orElse (message result) (lit "Not processed")));
                         quoted (clock index) ])))
  /\ (forall discountResults,
        discountResults !! index = Some result ->
        let lines :=
          imap (fun k res => join (lit ",") (summaryCells (clock k) res))
               discountResults in
        let written :=
          [ intString (row result); customer result;
            orEmpty (discountCode result); [];
            statusString (status result); message result; clock index ] in
        let line :=
          join (lit ",") (List.map (fun v => quoted (escapeQuotes v)) written) in
        generateSummaryCSV clock discountResults
        = join [10%N] (join (lit ",") (List.map quoted summaryHeaders) :: lines)
        /\ summaryHeaders !! 3 = Some (lit "Discount_Amount")
        /\ lines !! index = Some line
        /\ readCells AtStart [] [] line = Some written).
Proof.
  intros Ha Hz. split.
  - intros first rest r0 rs r Hr Hres headers lines. split_and!.
    + reflexivity.
    + unfold headers. rewrite lookup_app_r; [|lia].
      by replace (length (keys first) + 1 - length (keys first)) with 1 by lia.
    + apply length_originalValues.
    + unfold lines. rewrite list_lookup_imap, Hr. cbn [fmap option_fmap option_map].
      unfold mergedCells, newValues. rewrite Hres. cbn [mbind option_bind].
      by rewrite Ha, amountOrEmpty_zero.
  - intros discountResults Hres lines written line. split_and!.
    + reflexivity.
    + reflexivity.
    + unfold lines, line, written, summaryCells.
      rewrite list_lookup_imap, Hres. cbn [fmap option_fmap option_map].
      by rewrite Ha, amountOrEmpty_zero.
    + unfold line. by rewrite readCells_line; [|left|].
Qed.

Lemma zero_amount_is_exported_empty_witness :
  generateCSVWithCodes clock0 [danaTier] [freeOfCharge]
  = Csv (join [10%N]
           [ join (lit ",") (List.map quoted (keys danaTier ++ addedHeaders));
             join (lit ",")
               (List.map quoted
                  [ lit "Dana"; lit "0"; lit "Free";
                    lit "KICKSTARTER_DANA_1"; []; lit "success";
                    lit "Discount code created successfully"; isoStamp ]) ])
  /\ generateSummaryCSV clock0 [freeOfCharge]
     = join [10%N]
         [ join (lit ",") (List.map quoted summaryHeaders);
           join (lit ",")
             (List.map quoted
                [ lit "1"; lit "Dana"; lit "KICKSTARTER_DANA_1"; []; lit "success";
                  lit "Discount code created successfully"; isoStamp ]) ].
Proof.
  destruct (zero_amount_is_exported_empty clock0 freeOfCharge zero 0 eq_refl eq_refl)
    as [Hfull Hsummary].
  split.
  - destruct (Hfull danaTier [] freeOfCharge [] danaTier eq_refl eq_refl)
      as (Htext & _).
    rewrite Htext. reflexivity.
  - destruct (Hsummary [freeOfCharge] eq_refl) as (Htext & _).
    rewrite Htext. reflexivity.
Defined.

(** X16.  A row of the summary determines what it was written from: two
    results (with their time stamps) that give the same row text have the
    same row number, customer, code (or none), printed amount, status,
    message and time stamp, whatever commas, quotes or line breaks these
    contain. *)
Theorem summary_row_is_unambiguous
    (t1 t2 : jsstring) (r1 r2 : DiscountResult) :
  join (lit ",") (summaryCells t1 r1) = join (lit ",") (summaryCells t2 r2) ->
  row r1 = row r2 /\ customer r1 = customer r2
  /\ orEmpty (discountCode r1) = orEmpty (discountCode r2)
  /\ amountOrEmpty (amount r1) = amountOrEmpty (amount r2)
  /\ status r1 = status r2 /\ message r1 = message r2 /\ t1 = t2.
Proof.
  unfold summaryCells. intros Heq. apply escaped_cells_injective in Heq.
  injection Heq as Hrow Hcust Hcode Hamount Hstatus Hmsg Ht.
  split_and!; try done.
  - by apply intString_inj.
  - by apply statusString_inj.
Qed.

Lemma summary_row_is_unambiguous_witness :
  row quotedCustomer = row quotedCustomer
  /\ customer quotedCustomer = customer quotedCustomer
  /\ orEmpty (discountCode quotedCustomer) = orEmpty (discountCode quotedCustomer)
  /\ amountOrEmpty (amount quotedCustomer) = amountOrEmpty (amount quotedCustomer)
  /\ status quotedCustomer = status quotedCustomer
  /\ message quotedCustomer = message quotedCustomer /\ isoStamp = isoStamp.
Proof.
  apply (summary_row_is_unambiguous isoStamp isoStamp quotedCustomer quotedCustomer).
  reflexivity.
Defined.

(** *** The Export button of the index page *)

Lemma escapeQuotes_quoteFree (s : jsstring) :
  quoteFree s = true -> escapeQuotes s = s.
Proof.
  unfold quoteFree, escapeQuotes. induction s as [|c s IH]; simpl; [done|].
  rewrite andb_true_iff. intros [Hc Hs].
  destruct (c =? 34)%N; [done|]. simpl. by rewrite IH.
Qed.

Lemma quoteFree_app (a b : jsstring) :
  quoteFree (a ++ b) = quoteFree a && quoteFree b.
Proof. apply forallb_app. Qed.

Lemma quoteFree_digitUnits (ds : list N) : quoteFree (digitUnits ds) = true.
Proof.
  unfold quoteFree, digitUnits. apply forallb_forall. intros c Hc.
  apply in_map_iff in Hc as (d & <- & _).
  destruct (N.eqb_spec (d + 48) 34) as [Heq|]; [lia|done].
Qed.

Lemma quoteFree_repeat (n : nat) : quoteFree (repeat 48%N n) = true.
Proof. induction n; simpl; done. Qed.

Lemma quoteFree_intString (z : Z) : quoteFree (intString z) = true.
Proof.
  unfold quoteFree. apply forallb_forall. intros c Hc.
  apply (proj1 (forallb_forall _ _) (intString_codeUnits z)) in Hc.
  destruct (N.eqb_spec c 34) as [-> |]; done.
Qed.

Lemma quoteFree_numberString (x : number) : quoteFree (numberString x) = true.
Proof.
  unfold numberString.
  destruct x as [|neg|neg [|d ds] n]; [done | by destruct neg | done |].
  cbv zeta. rewrite quoteFree_app.
  replace (quoteFree (if neg then lit "-" else [])) with true by by destruct neg.
  repeat case_match; subst;
    rewrite ?quoteFree_app, ?quoteFree_digitUnits, ?quoteFree_repeat,
      ?quoteFree_intString; done.
Qed.

Lemma quoteFree_amountOrEmpty (a : option number) :
  quoteFree (amountOrEmpty a) = true.
Proof.
  destruct a as [x|]; [|done]. simpl.
  destruct (numberTruthy x); [apply quoteFree_numberString | done].
Qed.

(** X17.  For a result whose customer, code and message hold no double
    quote, the line that the index page's Export button writes is the
    summary row of that result without its first cell (the row number) and
    its last (the time stamp); the page escapes nothing, so the two agree
    only then. *)
Theorem results_page_line_agrees_with_summary
    (t : jsstring) (r : DiscountResult) :
  quoteFree (customer r) = true ->
  quoteFree (orEmpty (discountCode r)) = true ->
  quoteFree (message r) = true ->
  join (lit ",") (summaryCells t r)
  = quoted (intString (row r)) ++ lit "," ++ resultLine r ++ lit ","
      ++ quoted (escapeQuotes t).
Proof.
  intros Hc Hd Hm. unfold summaryCells, resultLine. cbn [List.map join].
  rewrite (escapeQuotes_quoteFree (customer r)) by done.
  rewrite (escapeQuotes_quoteFree (orEmpty (discountCode r))) by done.
  rewrite (escapeQuotes_quoteFree (message r)) by done.
  rewrite (escapeQuotes_quoteFree (amountOrEmpty (amount r)))
    by apply quoteFree_amountOrEmpty.
  rewrite (escapeQuotes_quoteFree (intString (row r))) by apply quoteFree_intString.
  rewrite (escapeQuotes_quoteFree (statusString (status r))) by by destruct (status r).
  by rewrite <- !app_assoc.
Qed.

Lemma results_page_line_agrees_with_summary_witness :
  join (lit ",") (summaryCells isoStamp aliceSuccess)
  = quoted (lit "1") ++ lit "," ++ resultLine aliceSuccess ++ lit ","
      ++ quoted isoStamp
  /\ csvContent [aliceSuccess]
     = join [10%N]
         [ lit "Customer,Discount Code,Amount,Status,Message";
           join (lit ",")
             (List.map quoted
                [ lit "Alice"; aliceCode; lit "25"; lit "success";
                  lit "Discount code created successfully" ]) ].
Proof.
  split; [|reflexivity].
  apply (results_page_line_agrees_with_summary isoStamp aliceSuccess); reflexivity.
Defined.

(* ===================================================================== *)
(** ** Properties of [parseCSV] *)
(* ===================================================================== *)

Lemma deliver_outcome (stream : list StreamEvent) :
  forall results headers isFirstRow,
    deliver stream results headers isFirstRow
    = match termination stream with
      | Some OnEnd =>
          Parses (mkTable (headersDelivered stream headers)
                          (results ++ rowsDelivered stream)
                          (length (results ++ rowsDelivered stream)))
      | Some (OnError message) => Fails (lit "Error parsing CSV: " ++ message)
      | _ => Pending
      end.
Proof.
  induction stream as [|[headerList|d| |message] rest IH];
    intros results headers isFirstRow; simpl.
  - done.
  - apply IH.
  - rewrite IH.
    destruct (termination rest) as [[]|]; try done.
    by rewrite <- !app_assoc.
  - by rewrite app_nil_r.
  - done.
Qed.

(** X18.  When [parseCSV] resolves, the stream ended without an error, the
    data of the table are the rows the stream delivered, in order,
    [rowCount] is their number, and the headers are the last header list
    the stream announced (none: the empty list). *)
Theorem parseCSV_table (stream : list StreamEvent) (table : ParsedTable) :
  parseCSV stream = Parses table ->
  termination stream = Some OnEnd
  /\ data table = rowsDelivered stream
  /\ rowCount table = length (data table)
  /\ headers table = headersDelivered stream [].
Proof.
  unfold parseCSV. rewrite deliver_outcome.
  destruct (termination stream) as [[]|]; try done.
  intros [= <-]. done.
Qed.

Lemma parseCSV_table_witness :
  termination shortLine = Some OnEnd
  /\ data (mkTable [nameColumn; priceColumn] [alicePlain; carolNoPrice] 2)
     = rowsDelivered shortLine
  /\ rowCount (mkTable [nameColumn; priceColumn] [alicePlain; carolNoPrice] 2)
     = length (data (mkTable [nameColumn; priceColumn] [alicePlain; carolNoPrice] 2))
  /\ headers (mkTable [nameColumn; priceColumn] [alicePlain; carolNoPrice] 2)
     = headersDelivered shortLine [].
Proof.
  apply (parseCSV_table shortLine). reflexivity.
Defined.

(** X19.  [parseCSV] settles with the first [end] or [error] of the stream:
    on [end] it resolves; on [error] it rejects with
    "Error parsing CSV: " followed by the stream's message, and the rows
    delivered before the error are lost; without either it never settles. *)
Theorem parseCSV_settles_once (stream : list StreamEvent) :
  (termination stream = Some OnEnd ->
     parseCSV stream
     = Parses (mkTable (headersDelivered stream []) (rowsDelivered stream)
                       (length (rowsDelivered stream))))
  /\ (forall message, termination stream = Some (OnError message) ->
        parseCSV stream = Fails (lit "Error parsing CSV: " ++ message))
  /\ (termination stream = None -> parseCSV stream = Pending).
Proof.
  unfold parseCSV. rewrite deliver_outcome. split_and!.
  - by intros ->.
  - by intros message ->.
  - by intros ->.
Qed.


Lemma parseCSV_settles_once_witness :
  parseCSV brokenFile = Fails (lit "Error parsing CSV: Unexpected end of input")
  /\ parseCSV shortLine
     = Parses (mkTable [nameColumn; priceColumn] [alicePlain; carolNoPrice] 2)
  /\ parseCSV [OnHeaders [nameColumn; priceColumn]; OnData alicePlain] = Pending.
Proof.
  split_and!.
  - apply (proj1 (proj2 (parseCSV_settles_once brokenFile))). reflexivity.
  - apply (proj1 (parseCSV_settles_once shortLine)). reflexivity.
  - apply (proj2 (proj2 (parseCSV_settles_once
                           [OnHeaders [nameColumn; priceColumn]; OnData alicePlain]))).
    reflexivity.
Defined.

(** *** How the full merge depends on the list of results *)

Lemma generateCSVWithCodes_ext clock (originalData : list Row)
    (results1 results2 : list DiscountResult) :
  results1 <> [] -> results2 <> [] ->
  (forall index, index < length originalData ->
     buildResultMap results1 !! Z.of_nat index
     = buildResultMap results2 !! Z.of_nat index) ->
  generateCSVWithCodes clock originalData results1
  = generateCSVWithCodes clock originalData results2.
Proof.
  intros H1 H2 Hmap.
  destruct originalData as [|first rest]; [by destruct results1, results2|].
  destruct results1 as [|a1 l1], results2 as [|a2 l2]; try done.
  rewrite !generateCSVWithCodes_rows. do 4 f_equal.
  apply imap_ext. intros index r Hr. unfold mergedCells.
  rewrite Hmap; [done|]. by eapply lookup_lt_Some.
Qed.

(** X20.  A result whose row number points outside the table (below 1 or
    above the number of input rows) changes nothing in the full merge,
    wherever it stands in the list, as long as other results remain. *)
Theorem full_merge_ignores_result_outside_table
    (clock : nat -> jsstring) (originalData : list Row)
    (before after : list DiscountResult) (stray : DiscountResult) :
  (row stray < 1 \/ Z.of_nat (length originalData) < row stray)%Z ->
  before ++ after <> [] ->
  generateCSVWithCodes clock originalData (before ++ stray :: after)
  = generateCSVWithCodes clock originalData (before ++ after).
Proof.
  intros Hout Hne. apply generateCSVWithCodes_ext; [by destruct before | done |].
  intros index Hlt. rewrite !buildResultMap_returns_last. unfold lastForRow.
  rewrite !List.filter_app. simpl.
  destruct (Z.eqb_spec (row stray - 1) (Z.of_nat index)) as [Heq|]; [lia|done].
Qed.

Lemma full_merge_ignores_result_outside_table_witness :
  generateCSVWithCodes clock0 [aliceTier; bobTier] [aliceSuccess; quotedCustomer; bobInvalid]
  = generateCSVWithCodes clock0 [aliceTier; bobTier] [aliceSuccess; bobInvalid].
Proof.
  apply (full_merge_ignores_result_outside_table
           clock0 [aliceTier; bobTier] [aliceSuccess] [bobInvalid] quotedCustomer).
  - right. simpl. lia.
  - discriminate.
Defined.

(** X21.  When the results carry pairwise distinct row numbers, their order
    in the list does not matter to the full merge. *)
Theorem full_merge_ignores_order_of_results
    (clock : nat -> jsstring) (originalData : list Row)
    (results1 results2 : list DiscountResult) :
  NoDup (List.map row results1) ->
  Permutation results1 results2 ->
  generateCSVWithCodes clock originalData results1
  = generateCSVWithCodes clock originalData results2.
Proof.
  intros Hnd Hperm.
  assert (Hnd2 : NoDup (List.map row results2)).
  { by rewrite <- (Permutation_map row Hperm). }
  destruct results1 as [|a1 l1].
  { apply Permutation_nil in Hperm. by subst. }
  destruct results2 as [|a2 l2].
  { by apply Permutation_sym, Permutation_nil in Hperm. }
  apply generateCSVWithCodes_ext; [done..|].
  intros index _.
  destruct (buildResultMap (a1 :: l1) !! Z.of_nat index) as [res|] eqn:H1.
  - assert (Hin : In res (a1 :: l1) /\ (row res - 1)%Z = Z.of_nat index).
    { rewrite buildResultMap_returns_last in H1. unfold lastForRow in H1.
      apply last_Some in H1 as (l' & Hl').
      assert (Hmem : In res (List.filter
                               (fun r => (row r - 1 =? Z.of_nat index)%Z) (a1 :: l1))).
      { rewrite Hl'. apply in_or_app. right. by left. }
      apply filter_In in Hmem as [? Hrow]. split; [done | lia]. }
    destruct Hin as [Hin Hrow].
    rewrite <- Hrow. symmetry. apply buildResultMap_distinct; [done|].
    by apply (Permutation_in _ Hperm).
  - symmetry. apply buildResultMap_unmatched. intros res Hin Hrow.
    apply (Permutation_in _ (Permutation_sym Hperm)) in Hin.
    pose proof (buildResultMap_distinct (a1 :: l1) Hnd res Hin) as Hfound.
    rewrite Hrow in Hfound. congruence.
Qed.

Lemma full_merge_ignores_order_of_results_witness :
  generateCSVWithCodes clock0 [aliceTier; bobTier] [aliceSuccess; bobInvalid]
  = generateCSVWithCodes clock0 [aliceTier; bobTier] [bobInvalid; aliceSuccess].
Proof.
  apply (full_merge_ignores_order_of_results
           clock0 [aliceTier; bobTier] [aliceSuccess; bobInvalid]
           [bobInvalid; aliceSuccess]).
  - apply (bool_decide_unpack _). vm_compute. exact I.
  - apply perm_swap.
Defined.
